(** * ca_pmda: the dynamic attribute model and the filter compiler

    A shallow embedding of [ca_pmda.py], the client library for the CA
    Performance Management Data Aggregator data-driven API, and the
    properties of it that the specification states.

    The module works on [xml.etree.ElementTree] elements, which are mutable
    objects compared by identity.  They are modelled as cells of a heap
    indexed by locations; a [DynamicModel] holds the location of the element
    it wraps, so that two wrappers of one element alias it.  Code that can
    raise is written in a state-and-exception monad: a raised exception
    keeps the mutations made before it.

    What lies outside the module is modelled as far as the module uses it.
    Of [ElementTree]: the element, [find] with a tag as its path (the path
    syntax of ElementPath is not modelled), [remove], [append], [set],
    [SubElement], [Element.__deepcopy__] and [indent]; the conversion
    between trees and text is a parameter ([XmlText]).  Of [requests]: the
    response with its case-insensitive headers and [raise_for_status]; the
    transport is a parameter ([Session]).  A wrapper object holds nothing
    but the reference to its element, and the module never observes the
    identity of a wrapper, so a [DynamicModel] is the value of that
    reference.  [Get], [Set] and [Delete] of the specification are
    [__getattr__], [__setattr__] and [__delattr__]. *)

From Stdlib Require Import ZArith String Ascii List Bool DecimalString.
From stdpp Require Import base option list gmap strings.

Local Open Scope string_scope.
#[local] Set Warnings "-register-all".

(** ** Python strings *)

Module PyStr.

(** [str.lower] and [str.casefold] on the ASCII letters; the module applies
    them to [str(bool)] and to an HTTP header value. *)
Definition lower_ascii (c : ascii) : ascii :=
  let n := nat_of_ascii c in
  if (65 <=? n)%nat && (n <=? 90)%nat then ascii_of_nat (n + 32) else c.

Fixpoint lower (s : string) : string :=
  match s with
  | EmptyString => EmptyString
  | String c r => String (lower_ascii c) (lower r)
  end.

Definition casefold (s : string) : string := lower s.

(** [s.startswith(p)] *)
Definition startswith (s p : string) : bool := String.prefix p s.

(** [str(z)] for an [int]. *)
Definition of_int (z : Z) : string := NilZero.string_of_int (Z.to_int z).

(** White space of [str.strip()] (ASCII). *)
Definition is_space (c : ascii) : bool :=
  let n := nat_of_ascii c in
  ((9 <=? n)%nat && (n <=? 13)%nat) || ((28 <=? n)%nat && (n <=? 32)%nat).

Fixpoint lstrip (s : string) : string :=
  match s with
  | EmptyString => EmptyString
  | String c r => if is_space c then lstrip r else s
  end.

(** [bool(s.strip())]: some character of [s] is not white space. *)
Definition strip_nonempty (s : string) : bool :=
  match lstrip s with EmptyString => false | _ => true end.

(** Truth value of a string. *)
Definition truthy (s : string) : bool :=
  match s with EmptyString => false | _ => true end.

End PyStr.

(** ** Dictionaries with string keys, in insertion order *)

Module Dict.

Definition t := list (string * string).

Fixpoint get (k : string) (d : t) : option string :=
  match d with
  | [] => None
  | (k', v) :: r => if String.eqb k' k then Some v else get k r
  end.

Fixpoint set (k v : string) (d : t) : t :=
  match d with
  | [] => [(k, v)]
  | (k', v') :: r =>
      if String.eqb k' k then (k, v) :: r else (k', v') :: set k v r
  end.

Definition contains (k : string) (d : t) : bool :=
  match get k d with Some _ => true | None => false end.

End Dict.

(** ** Elements and the heap *)

Abbreviation loc := positive.

(** An [xml.etree.ElementTree.Element]: tag, attribute dictionary, text,
    tail and the references to its children, in order. *)
Record Element := mkElement {
  tag : string;
  attrib : Dict.t;
  text : option string;
  tail : option string;
  children : list loc
}.

Abbreviation heap := (gmap loc Element).

(** The wrapper: [self.__dict__["__document__"] = doc]. *)
Record DynamicModel := mkDynamicModel { __document__ : loc }.

Record IsA := mkIsA { name : string; rootURL : string }.

(** The Python values that reach the module's functions.  A [float] is
    given by its [repr], the shortest decimal text that reads back as the
    same float; [str] of a float is that text. *)
Inductive PyValue :=
| VNone
| VBool (b : bool)
| VInt (z : Z)
| VFloat (repr : string)
| VStr (s : string)
| VModel (m : DynamicModel)
| VIsATuple (l : list IsA)
| VBytes (b : string).

Inductive PyType := TBool | TInt | TFloat | TStr | TDynamicModel.

(** [isinstance(value, ty)]; [bool] is a subclass of [int]. *)
Definition isinstance (value : PyValue) (ty : PyType) : bool :=
  match value, ty with
  | VBool _, TBool | VBool _, TInt => true
  | VInt _, TInt => true
  | VFloat _, TFloat => true
  | VStr _, TStr => true
  | VModel _, TDynamicModel => true
  | _, _ => false
  end.

Definition isinstance_any (value : PyValue) (tys : list PyType) : bool :=
  existsb (isinstance value) tys.

Inductive exn :=
| AttributeError (args : list string) (attr_name : option string)
                 (obj : option DynamicModel)
| TypeError (msg : string)
| KeyError (key : string)
| ValueError (msg : string)
| PmdaInfrastructureError (msg : string)
| HTTPError (status : Z)
| RecursionError
| ParseError.

Inductive result (A : Type) :=
| Ok (a : A)
| Raise (e : exn).
Arguments Ok {A} a.
Arguments Raise {A} e.

(** What the interpreter supplies. *)
Class Runtime := {
  (** [object.__hash__], a function of the object's identity *)
  object_hash : loc → Z;
  (** [sys.version_info < (3, 10)] *)
  version_lt_3_10 : bool;
  (** [sys.getrecursionlimit()] *)
  recursion_limit : nat
}.

(** ** The state and exception monad *)

Definition M (A : Type) : Type := heap → result A * heap.

Definition ret {A} (a : A) : M A := λ σ, (Ok a, σ).
Definition raise {A} (e : exn) : M A := λ σ, (Raise e, σ).
Definition bind {A B} (m : M A) (k : A → M B) : M B :=
  λ σ, match m σ with
       | (Ok a, σ') => k a σ'
       | (Raise e, σ') => (Raise e, σ')
       end.
Definition gets {A} (f : heap → A) : M A := λ σ, (Ok (f σ), σ).
Definition modify (f : heap → heap) : M unit := λ σ, (Ok tt, f σ).
(** A computation that reads the heap and may raise. *)
Definition read {A} (f : heap → result A) : M A := λ σ, (f σ, σ).
(** A pure computation that may raise. *)
Definition lift {A} (r : result A) : M A := λ σ, (r, σ).

#[global] Instance M_ret : MRet M := @ret.
#[global] Instance M_bind : MBind M := λ A B k m, bind m k.
#[global] Instance M_fmap : FMap M := λ A B f m, bind m (λ a, ret (f a)).

(** ** The element operations the module uses *)

Definition with_attrib (a : Dict.t) (e : Element) : Element :=
  mkElement (tag e) a (text e) (tail e) (children e).
Definition with_text (t : option string) (e : Element) : Element :=
  mkElement (tag e) (attrib e) t (tail e) (children e).
Definition with_tail (t : option string) (e : Element) : Element :=
  mkElement (tag e) (attrib e) (text e) t (children e).
Definition with_children (cs : list loc) (e : Element) : Element :=
  mkElement (tag e) (attrib e) (text e) (tail e) cs.

Definition tag_of (σ : heap) (l : loc) : option string := tag <$> σ !! l.
Definition attrib_of (σ : heap) (l : loc) : Dict.t :=
  match σ !! l with Some e => attrib e | None => [] end.
Definition text_of (σ : heap) (l : loc) : option string := σ !! l ≫= text.
Definition tail_of (σ : heap) (l : loc) : option string := σ !! l ≫= tail.
Definition children_of (σ : heap) (l : loc) : list loc :=
  match σ !! l with Some e => children e | None => [] end.

(** [child.tag == t] *)
Definition has_tag (σ : heap) (t : string) (c : loc) : bool :=
  bool_decide (tag_of σ c = Some t).

(** A new object, at a location not yet in use. *)
Definition alloc (e : Element) : M loc :=
  λ σ, let l := fresh (dom σ) in (Ok l, <[l := e]> σ).

Module ET.

(** [Element(tag, attrib)]: a new element, at a location not yet in use. *)
Definition Element (t : string) (a : Dict.t) : M loc :=
  alloc (mkElement t a None None []).

(** [parent.append(child)] *)
Definition append (parent child : loc) : M unit :=
  modify (alter (λ e, with_children (children e ++ [child]) e) parent).

(** [SubElement(parent, tag)] *)
Definition SubElement (parent : loc) (t : string) : M loc :=
  element ← Element t []; append parent element;; mret element.

(** [parent.find(t)] for a tag [t]: the first direct child tagged [t].
    (A path with ElementPath syntax is not a tag and is not modelled.) *)
Definition find (parent : loc) (t : string) : M (option loc) :=
  gets (λ σ, List.find (has_tag σ t) (children_of σ parent)).

(** [parent.findall("./t1/t2")]: in document order. *)
Definition findall2 (parent : loc) (t1 t2 : string) : M (list loc) :=
  gets (λ σ, c ← filter (λ c, has_tag σ t1 c) (children_of σ parent);
             filter (λ c, has_tag σ t2 c) (children_of σ c)).

Fixpoint remove_first (x : loc) (l : list loc) : option (list loc) :=
  match l with
  | [] => None
  | y :: r => if decide (y = x) then Some r
              else (y ::.) <$> remove_first x r
  end.

(** [parent.remove(sub)]: drops the first reference to [sub] among the
    children, [ValueError] when there is none. *)
Definition remove (parent sub : loc) : M unit :=
  λ σ, match remove_first sub (children_of σ parent) with
       | Some cs => (Ok tt, alter (with_children cs) parent σ)
       | None => (Raise (ValueError "list.remove(x): x not in list"), σ)
       end.

(** [element.get(key)] *)
Definition get (element : loc) (key : string) : M (option string) :=
  gets (λ σ, Dict.get key (attrib_of σ element)).

(** [element.set(key, value)] *)
Definition set (element : loc) (key value : string) : M unit :=
  modify (alter (λ e, with_attrib (Dict.set key value (attrib e)) e) element).

(** [element.attrib[key]] *)
Definition attrib_item (element : loc) (key : string) : M string :=
  λ σ, match Dict.get key (attrib_of σ element) with
       | Some v => (Ok v, σ)
       | None => (Raise (KeyError key), σ)
       end.

Definition set_text (element : loc) (t : option string) : M unit :=
  modify (alter (with_text t) element).

Definition set_tail (element : loc) (t : option string) : M unit :=
  modify (alter (with_tail t) element).

End ET.

(** [for x in l: f(x)] *)
Definition for_each {A} (f : A → M unit) : list A → M unit :=
  fix go l := match l with
              | [] => mret tt
              | x :: r => f x;; go r
              end.

(** [[f(x) for x in l]] *)
Definition map_each {A B} (f : A → M B) : list A → M (list B) :=
  fix go l := match l with
              | [] => mret []
              | x :: r => y ← f x; ys ← go r; mret (y :: ys)
              end.

(** ** Scalars *)

Section Scalars.
Context `{Runtime}.

Definition _attribute_error (args : list string) (name : option string)
    (obj : option DynamicModel) : exn :=
  let args2 :=
    match name with
    | Some n =>
        if PyStr.truthy n then
          match args with
          | [] => [n]
          | a :: r => (a ++ " Attribute name: " ++ n ++ ".") :: r
          end
        else args
    | None => args
    end in
  if version_lt_3_10 then AttributeError args2 None None
  else AttributeError args2 name obj.

Definition _scalar_types : list PyType := [TStr; TInt; TFloat; TBool].

(** [str(value)] for the scalar kinds. *)
Definition py_str (value : PyValue) : string :=
  match value with
  | VBool true => "True"
  | VBool false => "False"
  | VInt z => PyStr.of_int z
  | VFloat repr => repr
  | VStr s => s
  | _ => ""
  end.

Definition _scalar_to_str (value : PyValue) : result string :=
  (* Important to test bool first cause bools are also ints. *)
  if isinstance value TBool then Ok (PyStr.lower (py_str value))
  else if isinstance_any value [TStr; TInt; TFloat] then Ok (py_str value)
  else Raise (TypeError "Value must be of type str, int, float or bool.").

End Scalars.

(** ** DynamicModel *)

Section Model.
Context `{Runtime}.

Definition opt_str (o : option string) : PyValue :=
  match o with Some s => VStr s | None => VNone end.

Definition __getattr__ (self : DynamicModel) (name : string) : M PyValue :=
  (* Special case: version is an attribute on the root. *)
  if String.eqb name "version" then
    opt_str <$> ET.get (__document__ self) "version"
  else if String.eqb name "IsAlso" then
    es ← ET.findall2 (__document__ self) "IsAlso" "IsA";
    VIsATuple <$>
      map_each (λ e, n ← ET.attrib_item e "name";
                     r ← ET.attrib_item e "rootURL";
                     mret (mkIsA n r)) es
  else
    (* Get attribute element *)
    element ← ET.find (__document__ self) name;
    match element with
    | None =>
        raise (_attribute_error ["Attribute not found."] (Some name)
                                (Some self))
    | Some element =>
        a ← gets (λ σ, attrib_of σ element);
        if Dict.contains "version" a then
          (* Attribute element is a resource. *)
          mret (VModel (mkDynamicModel element))
        else
          (* Attribute element contains a scalar. *)
          opt_str <$> gets (λ σ, text_of σ element)
    end.

Definition __setattr__ (self : DynamicModel) (name : string)
    (value : PyValue) : M unit :=
  (* Special case: version is an attribute on the root. *)
  if String.eqb name "version" then
    match value with
    | VStr s => ET.set (__document__ self) "version" s
    | _ => raise (TypeError "Version must be a string.")
    end
  else if String.eqb name "IsAlso" then
    raise (_attribute_error ["This special attribute cannot be set."]
                            (Some name) (Some self))
  else
    (* Get element with attribute *)
    old_element ← ET.find (__document__ self) name;
    match old_element with
    | Some old_element => ET.remove (__document__ self) old_element
    | None => mret tt
    end;;
    if isinstance_any value _scalar_types then
      (* Get value as string. *)
      val_str ← lift (_scalar_to_str value);
      (* Create element. *)
      new_element ← ET.SubElement (__document__ self) name;
      (* Put the two together. *)
      ET.set_text new_element (Some val_str)
    else
      match value with
      | VModel value =>
          vtag ← gets (λ σ, default "" (tag_of σ (__document__ value)));
          if negb (String.eqb name vtag) then
            raise (TypeError ("Value of complex type " ++ vtag ++
                              " not appropriate for property " ++ name ++
                              "."))
          else ET.append (__document__ self) (__document__ value)
      | _ =>
          raise (TypeError
                   "Can only set attribute to a scalar or a DynamicModel.")
      end.

Definition __delattr__ (self : DynamicModel) (name : string) : M unit :=
  element ← ET.find (__document__ self) name;
  match element with
  | None =>
      raise (_attribute_error ["Attribute not found."] (Some name)
                              (Some self))
  | Some element => ET.remove (__document__ self) element
  end.

(** Two instances are equal if the underlying document is the same
    instance; elements compare by identity. *)
Definition __eq__ (self : DynamicModel) (value : PyValue) : bool :=
  match value with
  | VModel value => bool_decide (__document__ value = __document__ self)
  | _ => false
  end.

Definition __hash__ (self : DynamicModel) : Z :=
  object_hash (__document__ self).

(** [dynamic_model(_type, version, **attributes)] *)
Definition dynamic_model (_type : string) (version : PyValue)
    (attributes : list (string * PyValue)) : M DynamicModel :=
  element ← ET.Element _type [];
  let model := mkDynamicModel element in
  __setattr__ model "version" version;;
  for_each (λ kv, __setattr__ model kv.1 kv.2) attributes;;
  mret model.

End Model.

(** ** Reading the children of an element *)

(** The children without the first one that satisfies [p]. *)
Fixpoint drop_first (p : loc → bool) (cs : list loc) : list loc :=
  match cs with
  | [] => []
  | c :: r => if p c then r else c :: drop_first p r
  end.

(** The number of direct children of [l] tagged [t]. *)
Definition count_tagged (σ : heap) (t : string) (l : loc) : nat :=
  length (List.filter (has_tag σ t) (children_of σ l)).

(** Every child of [l] is an object of the heap. *)
Definition children_alive (σ : heap) (l : loc) : Prop :=
  Forall (λ c, c ∈ dom σ) (children_of σ l).

#[global] Instance children_alive_dec σ l : Decision (children_alive σ l).
Proof. unfold children_alive. apply _. Defined.

(** A name that is neither [version] nor [IsAlso]. *)
Definition ordinary (name : string) : Prop :=
  name ≠ "version" ∧ name ≠ "IsAlso".

(** The heap after the first step of [__setattr__]: the first child tagged
    [name], when there is one, has left the children of the node. *)
Definition drop_old (doc : loc) (name : string) (σ : heap) : heap :=
  alter (with_children
           (drop_first (has_tag σ name) (children_of σ doc))) doc σ.


(** ** Filter expressions *)

Inductive ComparisonOp :=
| LESS | LESS_OR_EQUAL | GREATER | GREATER_OR_EQUAL | EQUAL | CONTAINS
| STARTS_WITH | ENDS_WITH | REGEX | IS_NULL.

(** The operator as the string the source passes around. *)
Definition op_name (op : ComparisonOp) : string :=
  match op with
  | LESS => "LESS"
  | LESS_OR_EQUAL => "LESS_OR_EQUAL"
  | GREATER => "GREATER"
  | GREATER_OR_EQUAL => "GREATER_OR_EQUAL"
  | EQUAL => "EQUAL"
  | CONTAINS => "CONTAINS"
  | STARTS_WITH => "STARTS_WITH"
  | ENDS_WITH => "ENDS_WITH"
  | REGEX => "REGEX"
  | IS_NULL => "IS_NULL"
  end.

(** [AttributeComparison] and the three subclasses of [_Operator]; [Not]
    takes one operand. *)
Inductive Expression :=
| AttributeComparison (prop_name : string) (operator : ComparisonOp)
                      (prop_value : PyValue) (ignoreCase : bool)
| Not (operand : Expression)
| And (operands : list Expression)
| Or (operands : list Expression).

(** [_Operator.__toxml__], given [type(self).__name__], the operands and
    the method that compiles an operand. *)
Definition _Operator__toxml__ (toxml : Expression → M loc)
    (class_name : string) (operands : list Expression) : M loc :=
  e ← ET.Element class_name [];
  for_each (λ o, c ← toxml o; ET.append e c) operands;;
  mret e.

Fixpoint __toxml__ (self : Expression) : M loc :=
  match self with
  | AttributeComparison prop_name operator prop_value ignoreCase =>
      e ← ET.Element prop_name [("type", op_name operator)];
      (if ignoreCase then ET.set e "ignoreCase" "true" else mret tt);;
      text ← lift (_scalar_to_str prop_value);
      ET.set_text e (Some text);;
      mret e
  | Not operand => _Operator__toxml__ __toxml__ "Not" [operand]
  | And operands => _Operator__toxml__ __toxml__ "And" operands
  | Or operands => _Operator__toxml__ __toxml__ "Or" operands
  end.

(** Every comparison of the expression holds a scalar, as the type of
    [prop_value] says. *)
Fixpoint scalar_expr (e : Expression) : bool :=
  match e with
  | AttributeComparison _ _ prop_value _ =>
      isinstance_any prop_value _scalar_types
  | Not operand => scalar_expr operand
  | And operands | Or operands => forallb scalar_expr operands
  end.

(** ** XML trees, and the elements that represent them *)

Inductive XmlTree :=
| XmlNode (t : string) (a : Dict.t) (txt tl : option string)
          (cs : list XmlTree).

(** The element at [l] and its descendants are the tree [t], and all of
    them are at locations that satisfy [P]. *)
Fixpoint represents_in (P : loc → Prop) (σ : heap) (l : loc) (t : XmlTree)
    {struct t} : Prop :=
  match t with
  | XmlNode tg a tx tl ts =>
      P l ∧
      ∃ cs, σ !! l = Some (mkElement tg a tx tl cs) ∧
            (fix all (cs : list loc) (ts : list XmlTree) {struct ts} : Prop :=
               match cs, ts with
               | [], [] => True
               | c :: cs', t' :: ts' => represents_in P σ c t' ∧ all cs' ts'
               | _, _ => False
               end) cs ts
  end.

Definition represents (σ : heap) (l : loc) (t : XmlTree) : Prop :=
  represents_in (λ _, True) σ l t.

(** The tree under [l], read to the depth [fuel]. *)
Fixpoint read_tree (fuel : nat) (σ : heap) (l : loc) : option XmlTree :=
  match fuel with
  | O => None
  | S fuel =>
      e ← σ !! l;
      ts ← mapM (read_tree fuel σ) (children e);
      Some (XmlNode (tag e) (attrib e) (text e) (tail e) ts)
  end.

(** The compiled form of an expression, in the words of the specification:
    a comparison is an element tagged with the property name, with the
    attribute [type] holding the operator name, the attribute [ignoreCase]
    holding "true" exactly when the flag is set, and the encoded value as
    text; [Not], [And] and [Or] are elements tagged with their own name that
    contain the compiled operands in order. *)
Definition encoded (value : PyValue) : option string :=
  match _scalar_to_str value with
  | Ok s => Some s
  | Raise _ => None
  end.

Fixpoint compiled (e : Expression) : XmlTree :=
  match e with
  | AttributeComparison prop_name operator prop_value ignoreCase =>
      XmlNode prop_name
        (("type", op_name operator) ::
         (if ignoreCase then [("ignoreCase", "true")] else []))
        (encoded prop_value) None []
  | Not operand => XmlNode "Not" [] None None [compiled operand]
  | And operands => XmlNode "And" [] None None (map compiled operands)
  | Or operands => XmlNode "Or" [] None None (map compiled operands)
  end.

(** What [__toxml__] promises on the heap [σ]: a new element that
    represents the compiled expression, made of new objects only, every
    object of [σ] being left as it was. *)
Definition toxml_ok (e : Expression) : Prop :=
  scalar_expr e = true →
  ∀ σ : heap, ∃ l σ',
    __toxml__ e σ = (Ok l, σ') ∧
    represents_in (λ k, k ∉ dom σ) σ' l (compiled e) ∧
    (∀ k, k ∈ dom σ → σ' !! k = σ !! k).

(** ** Copying and rendering a model *)

(** What [xml.etree.ElementTree] reads and writes as text: [tostring] reads
    the tree under an element and modifies nothing; [fromstring] builds the
    tree of a document and returns its root, or fails with [ParseError]. *)
Class XmlText := {
  tostring : loc → heap → result string;
  fromstring : string → heap → option loc * heap
}.

Section Rendering.
Context `{Runtime} `{XmlText}.

(** The loop of [Element.__deepcopy__] over the children, given the copy
    of one element. *)
Definition copy_children
    (copy : loc → gmap loc loc → M (loc * gmap loc loc))
    : list loc → gmap loc loc → M (list loc * gmap loc loc) :=
  fix go cs memo :=
    match cs with
    | [] => mret ([], memo)
    | c :: cs =>
        r ← copy c memo;
        rs ← go cs r.2;
        mret (r.1 :: rs.1, rs.2)
    end.

(** [copy.deepcopy(x, memo)] of an element, as [Element.__deepcopy__]
    does it: a new element with the tag, attributes, text and tail of
    [x], whose children are the copies of the children of [x]; [x] enters
    the memo once its copy is complete.  [fuel] is the depth of recursion
    left. *)
Fixpoint deepcopy (fuel : nat) (x : loc) (memo : gmap loc loc)
    : M (loc * gmap loc loc) :=
  match memo !! x with
  | Some y => mret (y, memo)
  | None =>
      match fuel with
      | O => raise RecursionError
      | S fuel =>
          t ← gets (λ σ, default "" (tag_of σ x));
          a ← gets (λ σ, attrib_of σ x);
          element ← ET.Element t a;
          tx ← gets (λ σ, text_of σ x);
          ET.set_text element tx;;
          tl ← gets (λ σ, tail_of σ x);
          ET.set_tail element tl;;
          cs ← gets (λ σ, children_of σ x);
          r ← copy_children (deepcopy fuel) cs memo;
          modify (alter (with_children r.1) element);;
          mret (element, <[x := element]> r.2)
      end
  end.

(** ["\n" + level * "  "] *)
Definition indentation (level : nat) : string :=
  String "010" (String.concat "" (replicate level "  ")).

(** [not s or not s.strip()] *)
Definition blank (s : option string) : bool :=
  match s with
  | None => true
  | Some s => negb (PyStr.strip_nonempty s)
  end.

(** [_indent_children(elem, level)] of [ElementTree.indent]. *)
Fixpoint _indent_children (fuel : nat) (elem : loc) (level : nat)
    : M unit :=
  match fuel with
  | O => raise RecursionError
  | S fuel =>
      (* Start a new indentation level for the first child. *)
      let child_level := (level + 1)%nat in
      let child_indentation := indentation child_level in
      tx ← gets (λ σ, text_of σ elem);
      (if blank tx then ET.set_text elem (Some child_indentation)
       else mret tt);;
      cs ← gets (λ σ, children_of σ elem);
      for_each (λ child,
                  n ← gets (λ σ, length (children_of σ child));
                  (if (0 <? n)%nat
                   then _indent_children fuel child child_level
                   else mret tt);;
                  tl ← gets (λ σ, tail_of σ child);
                  if blank tl then ET.set_tail child (Some child_indentation)
                  else mret tt) cs;;
      (* Dedent after the last child by overwriting the previous
         indentation. *)
      match last cs with
      | Some child =>
          tl ← gets (λ σ, tail_of σ child);
          if blank tl then ET.set_tail child (Some (indentation level))
          else mret tt
      | None => mret tt
      end
  end.

(** [ElementTree.indent(tree)] *)
Definition indent (tree : loc) : M unit :=
  n ← gets (λ σ, length (children_of σ tree));
  if (n =? 0)%nat then mret tt
  else _indent_children recursion_limit tree 0.

Definition dump_dynamic_model (dynamic_model : DynamicModel) : M string :=
  r ← deepcopy recursion_limit (__document__ dynamic_model) ∅;
  let doc := r.1 in
  indent doc;;
  read (tostring doc).

End Rendering.

(** ** The client *)

(** [requests.structures.CaseInsensitiveDict]: the store maps the
    lower-cased key to the key and the value. *)
Module CaseInsensitiveDict.

Definition t := list (string * (string * string)).

Fixpoint lookup (k : string) (d : t) : option (string * string) :=
  match d with
  | [] => None
  | (k', kv) :: r => if String.eqb k' k then Some kv else lookup k r
  end.

Fixpoint store (k : string) (kv : string * string) (d : t) : t :=
  match d with
  | [] => [(k, kv)]
  | (k', kv') :: r =>
      if String.eqb k' k then (k, kv) :: r else (k', kv') :: store k kv r
  end.

(** [d[key] = value] *)
Definition setitem (key value : string) (d : t) : t :=
  store (PyStr.lower key) (key, value) d.

(** [d[key]] *)
Definition getitem (d : t) (key : string) : result string :=
  match lookup (PyStr.lower key) d with
  | Some kv => Ok kv.2
  | None => Raise (KeyError (PyStr.lower key))
  end.

(** The dictionary of the given header lines. *)
Definition of_list (l : list (string * string)) : t :=
  fold_left (λ d kv, setitem kv.1 kv.2 d) l [].

End CaseInsensitiveDict.

Record Response := mkResponse {
  status_code : Z;
  headers : CaseInsensitiveDict.t;
  content : string
}.

(** [response.raise_for_status()] *)
Definition raise_for_status (response : Response) : result unit :=
  if ((400 <=? status_code response) && (status_code response <? 600))%Z
  then Raise (HTTPError (status_code response))
  else Ok tt.

(** The transport: [post(url, data, headers)] answers with a response or
    fails. *)
Record Session := mkSession {
  post : string → string → Dict.t → result Response
}.

Inductive Protocol := http | https.

Definition protocol_name (p : Protocol) : string :=
  match p with http => "http" | https => "https" end.

Record DynamicClient := mkDynamicClient {
  host_name : string;
  protocol : Protocol;
  session : Session
}.

(** The generator [(DynamicModel(child) for child in document)]: the
    element it iterates over and the index it has reached. *)
Record Generator := mkGenerator { gen_element : loc; gen_index : nat }.

Module _Headers.
Definition accept : string * string := ("accept", "application/xml").
Definition content_type : string * string :=
  ("content-type", "application/xml").
End _Headers.

Section Client.
Context `{XmlText}.

Definition _filter_select (filter : Expression) : M string :=
  root ← ET.Element "FilterSelect"
           [("{http://www.w3.org/2001/XMLSchema-instance}noNamespaceSchemaLocation",
             "filter.xsd")];
  filter_e ← ET.SubElement root "Filter";
  c ← __toxml__ filter;
  ET.append filter_e c;;
  read (tostring root).

Definition _create_url (self : DynamicClient) (service_uri op_uri : string)
    : string :=
  protocol_name (protocol self) ++ "://" ++ host_name self ++
  ":8581/rest/" ++ service_uri ++ "/" ++ op_uri.

Definition _parse_xml_response_data (response : Response) : M loc :=
  response_content_type ←
    lift (match CaseInsensitiveDict.getitem (headers response)
                  _Headers.content_type.1 with
          | Ok v => Ok (PyStr.casefold v)
          | Raise e => Raise e
          end);
  let expected_content_type := _Headers.content_type.2 in
  if negb (String.eqb response_content_type expected_content_type) &&
     negb (PyStr.startswith response_content_type
             (expected_content_type ++ ";"))
  then
    raise (PmdaInfrastructureError
             ("CA PM DA client requested XML, but got " ++
              response_content_type ++ " instead."))
  else
    λ σ, match fromstring (content response) σ with
         | (Some root, σ') => (Ok root, σ')
         | (None, σ') => (Raise ParseError, σ')
         end.

(** The next model of the generator: the child at the index is wrapped
    when it is asked for. *)
Definition generator_next (g : Generator)
    : M (option (DynamicModel * Generator)) :=
  gets (λ σ, match children_of σ (gen_element g) !! gen_index g with
             | Some child =>
                 Some (mkDynamicModel child,
                       mkGenerator (gen_element g) (S (gen_index g)))
             | None => None
             end).

Definition filtered_get_list (self : DynamicClient) (service_uri : string)
    (filter : Expression) : M Generator :=
  let url := _create_url self service_uri "filtered" in
  let headers := [_Headers.accept; _Headers.content_type] in
  data ← _filter_select filter;
  response ← lift (post (session self) url data headers);
  lift (raise_for_status response);;
  document ← _parse_xml_response_data response;
  mret (mkGenerator document 0).

End Client.

(** ** Heaps that grow by new objects *)

(** The objects at the locations of [D] are the same in [σ'] as in [σ]. *)
Definition unchanged_on (D : gset loc) (σ σ' : heap) : Prop :=
  ∀ k, k ∈ D → σ' !! k = σ !! k.

(** The objects outside [D] refer to objects outside [D] only. *)
Definition new_closed (D : gset loc) (σ : heap) : Prop :=
  ∀ k, k ∉ D → Forall (λ c, c ∉ D) (children_of σ k).

(** The copies that the memo records are outside [D]. *)
Definition memo_new (D : gset loc) (memo : gmap loc loc) : Prop :=
  ∀ x y, memo !! x = Some y → y ∉ D.

(** The objects of [D] are the same and every object has the children it
    had. *)
Definition touches_new (D : gset loc) (σ σ' : heap) : Prop :=
  unchanged_on D σ σ' ∧ ∀ k, children_of σ' k = children_of σ k.

(** What a copying function promises: the objects that were in the heap
    are unchanged, and on success the copy and what it refers to are
    outside [D]. *)
Definition copy_ok (D : gset loc) {A} (new : A → Prop)
    (f : gmap loc loc → M (A * gmap loc loc)) : Prop :=
  ∀ memo (σ : heap) r σ',
    D ⊆ dom σ → new_closed D σ → memo_new D memo →
    f memo σ = (r, σ') →
    unchanged_on (dom σ) σ σ' ∧
    match r with
    | Ok (y, memo') => new y ∧ new_closed D σ' ∧ memo_new D memo'
    | Raise _ => True
    end.

(** The validation of the content type, on the case-folded header value. *)
Definition is_xml (v : string) : bool :=
  String.eqb v "application/xml" || PyStr.startswith v "application/xml;".

Definition not_xml_error (v : string) : exn :=
  PmdaInfrastructureError
    ("CA PM DA client requested XML, but got " ++ v ++ " instead.").

(** ** Examples *)

(** CPython 3.10 or later, hashing an object by its address. *)
Definition cpython : Runtime :=
  {| object_hash := λ l, Z.pos l;
     version_lt_3_10 := false;
     recursion_limit := 1000 |}.

(** [<ManageableDevice version="1.0.0"><DataCollectionMgrId
    version="1.0.0"/></ManageableDevice>] at 1 and 2, and a detached
    [<Lifecycle version="1.0.0"/>] at 3. *)
Definition device_heap : heap :=
  <[1%positive := mkElement "ManageableDevice" [("version", "1.0.0")]
                    None None [2%positive]]>
  (<[2%positive := mkElement "DataCollectionMgrId" [("version", "1.0.0")]
                     None None []]>
  (<[3%positive := mkElement "Lifecycle" [("version", "1.0.0")]
                     None None []]> ∅)).

(** [<Ranks><Rank>2</Rank><Rank>8</Rank></Ranks>] at 1, 2 and 3: a node
    with two children of one tag, as the lists of the service have. *)
Definition ranks_heap : heap :=
  <[1%positive := mkElement "Ranks" [] None None [2%positive; 3%positive]]>
  (<[2%positive := mkElement "Rank" [] (Some "2") None []]>
  (<[3%positive := mkElement "Rank" [] (Some "8") None []]> ∅)).

(** The expression of [testComplex]. *)
Definition complex_filter : Expression :=
  Not (Or [AttributeComparison "ManageableDevice.Model" CONTAINS
             (VStr "ISR4479") false;
           AttributeComparison "DataCollectionMgrId.PrevMDRItemID"
             LESS_OR_EQUAL (VInt 789) false;
           And [AttributeComparison "Lifecycle.State" EQUAL
                  (VStr "RETIRED") false;
                AttributeComparison "ManageableDevice.SystemName" ENDS_WITH
                  (VStr ".my-org.com") false]]).

(** A response with status 200 and the given header lines and body. *)
Definition response_200 (lines : list (string * string)) (body : string)
    : Response :=
  mkResponse 200 (CaseInsensitiveDict.of_list lines) body.

(** A transport that answers every request with [r]. *)
Definition answering (r : Response) : Session :=
  mkSession (λ _ _ _, Ok r).

Definition client_of (r : Response) : DynamicClient :=
  mkDynamicClient "da.example.com" https (answering r).

(** An XML library for the examples.  It writes and reads documents made
    of elements, attributes in double quotes and text, without namespaces,
    entities, comments or declarations; it rejects every other document. *)
Module PlainXml.

Definition quote : ascii := "034".

Definition escape_char (attr : bool) (c : ascii) : string :=
  if Ascii.eqb c "&" then "&amp;"
  else if Ascii.eqb c "<" then "&lt;"
  else if Ascii.eqb c ">" then "&gt;"
  else if attr && Ascii.eqb c quote then "&quot;"
  else if attr && Ascii.eqb c "013" then "&#13;"
  else if attr && Ascii.eqb c "010" then "&#10;"
  else if attr && Ascii.eqb c "009" then "&#09;"
  else String c "".

(** [_escape_cdata] and, with [attr], [_escape_attrib]. *)
Fixpoint escape (attr : bool) (s : string) : string :=
  match s with
  | EmptyString => ""
  | String c r => escape_char attr c ++ escape attr r
  end.

Definition write_attrib (kv : string * string) : string :=
  " " ++ kv.1 ++ "=" ++ String quote (escape true kv.2) ++ String quote "".

(** [_serialize_xml], with short empty elements. *)
Fixpoint serialize (fuel : nat) (σ : heap) (l : loc) : option string :=
  match fuel with
  | O => None
  | S fuel =>
      e ← σ !! l;
      cs ← mapM (serialize fuel σ) (children e);
      let tx := default "" (text e) in
      let body :=
        if PyStr.truthy tx || (0 <? length cs)%nat
        then ">" ++ escape false tx ++ String.concat "" cs ++
             "</" ++ tag e ++ ">"
        else " />" in
      Some ("<" ++ tag e ++ String.concat "" (map write_attrib (attrib e)) ++
            body ++ escape false (default "" (tail e)))
  end.

Definition tostring (l : loc) (σ : heap) : result string :=
  match serialize 1000 σ l with
  | Some s => Ok s
  | None => Raise RecursionError
  end.

Definition between (lo hi : nat) (c : ascii) : bool :=
  (lo <=? nat_of_ascii c)%nat && (nat_of_ascii c <=? hi)%nat.

Definition name_start (c : ascii) : bool :=
  between 65 90 c || between 97 122 c || Ascii.eqb c "_".

Definition name_char (c : ascii) : bool :=
  name_start c || between 48 57 c || Ascii.eqb c "-" || Ascii.eqb c ".".

(** Plain character data: no markup, no entity. *)
Definition data_char (c : ascii) : bool :=
  negb (Ascii.eqb c "<") && negb (Ascii.eqb c "&").

Definition value_char (c : ascii) : bool :=
  data_char c && negb (Ascii.eqb c quote).

(** The longest prefix of characters that satisfy [p], and the rest. *)
Fixpoint span (p : ascii → bool) (s : string) : string * string :=
  match s with
  | EmptyString => ("", "")
  | String c r =>
      if p c then let pr := span p r in (String c pr.1, pr.2) else ("", s)
  end.

Definition skip_space (s : string) : string := (span PyStr.is_space s).2.

(** [s] without the prefix [p]. *)
Fixpoint expect (p s : string) : option string :=
  match p, s with
  | EmptyString, _ => Some s
  | String a p', String b s' => if Ascii.eqb a b then expect p' s' else None
  | _, EmptyString => None
  end.

Definition read_name (s : string) : option (string * string) :=
  match s with
  | String c _ => if name_start c then Some (span name_char s) else None
  | EmptyString => None
  end.

Definition nonempty (s : string) : option string :=
  if PyStr.truthy s then Some s else None.

Fixpoint read_attribs (fuel : nat) (s : string) : option (Dict.t * string) :=
  match fuel with
  | O => None
  | S fuel =>
      let s := skip_space s in
      match read_name s with
      | None => Some ([], s)
      | Some (k, s) =>
          s ← expect "=" s;
          s ← expect (String quote "") s;
          let vs := span value_char s in
          s ← expect (String quote "") vs.2;
          r ← read_attribs fuel s;
          if Dict.contains k r.1 then None else Some ((k, vs.1) :: r.1, r.2)
      end
  end.

Definition with_tree_tail (tl : option string) (t : XmlTree) : XmlTree :=
  match t with XmlNode tg a tx _ cs => XmlNode tg a tx tl cs end.

(** An element, and the content of an element up to its end tag: the text
    before the first child and the children, each with its tail. *)
Fixpoint read_element (fuel : nat) (s : string) : option (XmlTree * string) :=
  match fuel with
  | O => None
  | S fuel =>
      s ← expect "<" s;
      '(tg, s) ← read_name s;
      '(a, s) ← read_attribs (String.length s) s;
      match expect "/>" s with
      | Some s => Some (XmlNode tg a None None [], s)
      | None =>
          s ← expect ">" s;
          '(tx, cs, s) ← read_content fuel s;
          s ← expect "</" s;
          s ← expect tg s;
          s ← expect ">" (skip_space s);
          Some (XmlNode tg a tx None cs, s)
      end
  end
with read_content (fuel : nat) (s : string)
    : option (option string * list XmlTree * string) :=
  match fuel with
  | O => None
  | S fuel =>
      let ts := span data_char s in
      match expect "</" ts.2 with
      | Some _ => Some (nonempty ts.1, [], ts.2)
      | None =>
          '(c, s) ← read_element fuel ts.2;
          '(tl, cs, s) ← read_content fuel s;
          Some (nonempty ts.1, with_tree_tail tl c :: cs, s)
      end
  end.

(** The elements of a tree, allocated children first. *)
Fixpoint build (t : XmlTree) : M loc :=
  match t with
  | XmlNode tg a tx tl cs =>
      cs ← map_each build cs;
      alloc (mkElement tg a tx tl cs)
  end.

Definition fromstring (s : string) (σ : heap) : option loc * heap :=
  match read_element (S (String.length s)) (skip_space s) with
  | Some (t, rest) =>
      match skip_space rest, build t σ with
      | EmptyString, (Ok l, σ') => (Some l, σ')
      | _, _ => (None, σ)
      end
  | None => (None, σ)
  end.

End PlainXml.

Definition plain_xml : XmlText :=
  {| tostring := PlainXml.tostring; fromstring := PlainXml.fromstring |}.

(** The body of a response: a list of two profiles. *)
Definition profiles_body : string :=
  "<CommunicationProfileList>" ++
  "<CommunicationProfile version=" ++ String PlainXml.quote "1.0.0" ++
  String PlainXml.quote ">" ++
  "<ID>1234567</ID><Rank>2</Rank></CommunicationProfile>" ++
  "<CommunicationProfile version=" ++ String PlainXml.quote "1.0.0" ++
  String PlainXml.quote ">" ++
  "<ID>2345</ID><Rank>8</Rank></CommunicationProfile>" ++
  "</CommunicationProfileList>".

(** ** Copies of trees *)

(** The depth of a tree: the number of nested calls that copy it. *)
Fixpoint depth (t : XmlTree) : nat :=
  match t with
  | XmlNode _ _ _ _ cs => S (foldr (λ c d, Nat.max (depth c) d) 0%nat cs)
  end.

(** The memo maps an element of [D] to a copy of it: an element outside
    [D], at locations that satisfy [Q], that represents the same tree. *)
Definition memo_copies (D : gset loc) (Q : loc → Prop)
    (memo : gmap loc loc) (σ : heap) : Prop :=
  ∀ x y t, memo !! x = Some y →
    represents_in (λ k, k ∈ D) σ x t →
    represents_in (λ k, (k ∉ D) ∧ Q k) σ y t.

(** What the copy of an element promises for the trees of depth at most
    [n]. *)
Definition copies (D : gset loc) (n : nat)
    (copy : loc → gmap loc loc → M (loc * gmap loc loc)) : Prop :=
  ∀ x t (Q : loc → Prop) memo (σ : heap),
    represents_in (λ k, k ∈ D) σ x t →
    (depth t ≤ n)%nat →
    D ⊆ dom σ →
    (∀ k, k ∉ dom σ → Q k) →
    memo_copies D Q memo σ →
    ∃ y memo' σ',
      copy x memo σ = (Ok (y, memo'), σ') ∧
      represents_in (λ k, (k ∉ D) ∧ Q k) σ' y t ∧
      unchanged_on (dom σ) σ σ' ∧
      memo_copies D Q memo' σ'.

(** The element at [l] and its descendants are arranged as the tree [t]
    is, whatever they hold. *)
Fixpoint shaped (σ : heap) (l : loc) (t : XmlTree) {struct t} : Prop :=
  match t with
  | XmlNode _ _ _ _ ts =>
      (fix all (cs : list loc) (ts : list XmlTree) {struct ts} : Prop :=
         match cs, ts with
         | [], [] => True
         | c :: cs', t' :: ts' => shaped σ c t' ∧ all cs' ts'
         | _, _ => False
         end) (children_of σ l) ts
  end.

(** * The rest of the module *)

(** ** Rendering a model as a string, and listing its attributes *)

Section Introspection.
Context `{Runtime}.

(** [hasattr(self, name)] for a name that normal attribute lookup does not
    find: [__getattr__] is called, and [AttributeError] means no. *)
Definition hasattr (self : DynamicModel) (name : string) : M bool :=
  λ σ, match __getattr__ self name σ with
       | (Ok _, σ') => (Ok true, σ')
       | (Raise (AttributeError _ _ _), σ') => (Ok false, σ')
       | (Raise e, σ') => (Raise e, σ')
       end.

(** [DynamicModel.__str__]; the identifier is formatted with [str], which
    for a model is [__str__] again.  [fuel] is the depth of recursion
    left. *)
Fixpoint __str__ (fuel : nat) (self : DynamicModel) : M string :=
  match fuel with
  | O => raise RecursionError
  | S fuel =>
      type_name ← gets (λ σ, default "" (tag_of σ (__document__ self)));
      has_id ← hasattr self "ID";
      if (has_id : bool) then
        id ← __getattr__ self "ID";
        s ← match (id : PyValue) with
            | VModel m => __str__ fuel m
            | VNone => mret "None"
            | v => mret (py_str v)
            end;
        mret ("<" ++ type_name ++ " with ID " ++ s ++ ">")
      else mret ("<" ++ type_name ++ ">")
  end.

(** [DynamicModel.__dir__]: the names [object.__dir__] gives, the tags of
    the children, and [version]. *)
Definition __dir__ (object_dir : list string) (self : DynamicModel)
    : M (list string) :=
  tags ← gets (λ σ, omap (tag_of σ) (children_of σ (__document__ self)));
  mret (object_dir ++ tags ++ ["version"])%list.

End Introspection.

(** ** Consuming the generator of a filtered list *)

(** The first [n] models of the generator, as [itertools.islice] takes
    them, and the generator where it stopped. *)
Fixpoint generator_take (n : nat) (g : Generator)
    : M (list DynamicModel * Generator) :=
  match n with
  | O => mret (@nil DynamicModel, g)
  | S n =>
      r ← generator_next g;
      match r with
      | None => mret (@nil DynamicModel, g)
      | Some (model, g') =>
          rest ← generator_take n g';
          mret (model :: rest.1, rest.2)
      end
  end.

(** ** Updating a resource *)

Section Update.
(** [self.session.put], and [ElementTree.tostring] with its default
    encoding, which writes bytes. *)
Variable put : string → string → Dict.t → result Response.
Variable tostring_bytes : loc → heap → result string.

Definition update (self : DynamicClient) (service_uri resource_id : string)
    (updated : DynamicModel) : M unit :=
  let url := (_create_url self service_uri "" ++ "/") ++ resource_id in
  let headers := [_Headers.content_type] in
  data ← read (tostring_bytes (__document__ updated));
  response ← lift (put url data headers);
  lift (raise_for_status response).

End Update.

(** ** Trees that the factory builds *)



(** The element of the request body of a filtered list. *)
Definition filter_select_tree (e : Expression) : XmlTree :=
  XmlNode "FilterSelect"
    [("{http://www.w3.org/2001/XMLSchema-instance}noNamespaceSchemaLocation",
      "filter.xsd")] None None
    [XmlNode "Filter" [] None None [compiled e]].

(** [<Profile version="1.0.0"><ID>7</ID><IsAlso><IsA name="SNMPv3Profile"
    rootURL="profiles/snmpv3"/></IsAlso><Policy version="1.0.0"/></Profile>]
    at 1 to 5. *)
Definition profile_heap : heap :=
  <[1%positive := mkElement "Profile" [("version", "1.0.0")] None None
                    [2%positive; 3%positive; 5%positive]]>
  (<[2%positive := mkElement "ID" [] (Some "7") None []]>
  (<[3%positive := mkElement "IsAlso" [] None None [4%positive]]>
  (<[4%positive := mkElement "IsA"
                     [("name", "SNMPv3Profile");
                      ("rootURL", "profiles/snmpv3")] None None []]>
  (<[5%positive := mkElement "Policy" [("version", "1.0.0")]
                     None None []]> ∅)))).

(** ** Reading [IsAlso] *)

(** The [IsA] elements under the [IsAlso] children of [doc], in document
    order. *)
Definition isa_elements (σ : heap) (doc : loc) : list loc :=
  c ← filter (λ c, has_tag σ "IsAlso" c) (children_of σ doc);
  filter (λ c, has_tag σ "IsA" c) (children_of σ c).

(** [IsA(e.attrib["name"], e.attrib["rootURL"])] *)
Definition isa_of (σ : heap) (e : loc) : result IsA :=
  match Dict.get "name" (attrib_of σ e) with
  | None => Raise (KeyError "name")
  | Some n =>
      match Dict.get "rootURL" (attrib_of σ e) with
      | None => Raise (KeyError "rootURL")
      | Some r => Ok (mkIsA n r)
      end
  end.

(** The pairs of the elements [es], or the error of the first element that
    lacks an attribute. *)
Fixpoint isa_all (σ : heap) (es : list loc) : result (list IsA) :=
  match es with
  | [] => Ok []
  | e :: es =>
      match isa_of σ e with
      | Raise err => Raise err
      | Ok i =>
          match isa_all σ es with
          | Ok l => Ok (i :: l)
          | Raise err => Raise err
          end
      end
  end.

(** ** Filters that do not compile *)

Definition scalar_type_error : exn :=
  TypeError "Value must be of type str, int, float or bool.".

(** What [__toxml__] does on the heap [σ] with an expression that holds a
    value that is not a scalar: it raises, and every object of [σ] is left
    as it was. *)
Definition toxml_raises (e : Expression) : Prop :=
  scalar_expr e = false →
  ∀ σ : heap, ∃ σ',
    __toxml__ e σ = (Raise scalar_type_error, σ') ∧
    (∀ k, k ∈ dom σ → σ' !! k = σ !! k).

(** ** Documents with one child for a name *)


(** * Properties *)

(** ** Strings and dictionaries *)

Example lower_True : PyStr.lower "True" = "true".
Proof. reflexivity. Qed.

Example of_int_4567 : PyStr.of_int 4567 = "4567".
Proof. reflexivity. Qed.

Example of_int_neg : PyStr.of_int (-12) = "-12".
Proof. reflexivity. Qed.

Example of_int_zero : PyStr.of_int 0 = "0".
Proof. reflexivity. Qed.

Lemma Dict_get_set_eq k v d : Dict.get k (Dict.set k v d) = Some v.
Proof.
  induction d as [|[k' v'] r IH]; simpl.
  - by rewrite String.eqb_refl.
  - destruct (String.eqb k' k) eqn:E; simpl.
    + by rewrite String.eqb_refl.
    + by rewrite E.
Qed.

Lemma Dict_get_set_ne k k' v d : k ≠ k' → Dict.get k' (Dict.set k v d) = Dict.get k' d.
Proof.
  intros Hne. induction d as [|[k0 v0] r IH]; simpl.
  - destruct (String.eqb_spec k k'); [done|done].
  - destruct (String.eqb_spec k0 k) as [->|Hk]; simpl.
    + destruct (String.eqb_spec k k'); done.
    + by rewrite IH.
Qed.


(** ** The scalar encoding *)

Lemma scalar_to_str_bool b :
  _scalar_to_str (VBool b) = Ok (if b then "true" else "false").
Proof. by destruct b. Qed.

Lemma scalar_to_str_int z : _scalar_to_str (VInt z) = Ok (PyStr.of_int z).
Proof. reflexivity. Qed.

Lemma scalar_to_str_str s : _scalar_to_str (VStr s) = Ok s.
Proof. reflexivity. Qed.

Lemma scalar_to_str_float r : _scalar_to_str (VFloat r) = Ok r.
Proof. reflexivity. Qed.

(** A value passes the scalar test of [__setattr__] exactly when
    [_scalar_to_str] encodes it. *)
Lemma scalar_types_encode value :
  isinstance_any value _scalar_types = true →
  ∃ s, _scalar_to_str value = Ok s.
Proof. destruct value as [| [] | | | | | |]; simpl; try done; eauto. Qed.



(** C6. [_scalar_to_str] encodes [True] as "true" and [False] as "false",
    never as "1" or "0": although a [bool] is an instance of [int], the
    boolean test comes first, so the encoding of a boolean differs from the
    encoding of the integer it equals.  Every value that is not a [str],
    [int], [float] or [bool] raises [TypeError]. *)
Theorem C6_scalar_to_str :
  _scalar_to_str (VBool true) = Ok "true" ∧
  _scalar_to_str (VBool false) = Ok "false" ∧
  (∀ b, isinstance (VBool b) TInt = true ∧
        _scalar_to_str (VBool b) ≠ Ok "1" ∧
        _scalar_to_str (VBool b) ≠ Ok "0" ∧
        _scalar_to_str (VBool b) ≠ _scalar_to_str (VInt (Z.b2z b))) ∧
  (∀ value,
     match value with
     | VStr _ | VInt _ | VFloat _ | VBool _ => True
     | _ => _scalar_to_str value =
            Raise (TypeError "Value must be of type str, int, float or bool.")
     end).
Proof.
  split; [reflexivity|]. split; [reflexivity|]. split.
  - intros []; repeat split; discriminate.
  - intros []; done.
Qed.

(** ** Equality and hashing *)

(** C2. Two models over one element compare equal and have equal hashes;
    two models compare equal exactly when their elements are the same
    object.  Equality of content is not enough: two distinct elements with
    the same tag, attributes, text and children make unequal models.  A
    model equals nothing that is not a model. *)
Theorem C2_eq_hash `{Runtime} :
  (∀ n : loc,
     let modelA := mkDynamicModel n in
     let modelB := mkDynamicModel n in
     __eq__ modelA (VModel modelB) = true ∧
     __hash__ modelA = __hash__ modelB) ∧
  (∀ a b : DynamicModel,
     __eq__ a (VModel b) = true ↔ __document__ a = __document__ b) ∧
  (∀ a b : DynamicModel,
     __document__ a = __document__ b → __hash__ a = __hash__ b) ∧
  (∃ (σ : heap) (n1 n2 : loc) (e : Element),
     σ !! n1 = Some e ∧ σ !! n2 = Some e ∧
     __eq__ (mkDynamicModel n1) (VModel (mkDynamicModel n2)) = false) ∧
  (∀ (a : DynamicModel) (value : PyValue),
     isinstance value TDynamicModel = false → __eq__ a value = false).
Proof.
  split; [|split; [|split; [|split]]].
  - intros n. simpl. split; [by apply bool_decide_eq_true|done].
  - intros a b. unfold __eq__. rewrite bool_decide_eq_true. naive_solver.
  - unfold __hash__. by intros a b ->.
  - exists (<[1%positive := mkElement "ID" [] (Some "7") None []]>
              (<[2%positive := mkElement "ID" [] (Some "7") None []]> ∅)),
      1%positive, 2%positive, (mkElement "ID" [] (Some "7") None []).
    done.
  - intros a []; done.
Qed.

(** ** Lists of children *)

Lemma find_remove_first p x cs :
  List.find p cs = Some x → ET.remove_first x cs = Some (drop_first p cs).
Proof.
  induction cs as [|c r IH]; simpl; [done|].
  destruct (p c) eqn:Hp.
  - intros [= ->]. by rewrite decide_True.
  - intros Hf. destruct (decide (c = x)) as [->|Hne].
    + apply find_some in Hf as [_ Hx]. congruence.
    + by rewrite (IH Hf).
Qed.


Lemma filter_drop_first p cs :
  length (List.filter p (drop_first p cs)) = pred (length (List.filter p cs)).
Proof.
  induction cs as [|c r IH]; simpl; [done|].
  destruct (p c) eqn:Hp; simpl; [done|]. by rewrite Hp.
Qed.

Lemma find_none_filter p (cs : list loc) :
  List.find p cs = None ↔ List.filter p cs = [].
Proof.
  induction cs as [|c r IH]; simpl; [done|].
  destruct (p c); [done|]. apply IH.
Qed.



Lemma filter_ext_in p q (cs : list loc) :
  (∀ c, c ∈ cs → p c = q c) → List.filter p cs = List.filter q cs.
Proof.
  induction cs as [|c r IH]; simpl; intros Hpq; [done|].
  rewrite <- (Hpq c) by apply list_elem_of_here. rewrite IH; [done|].
  intros c' Hc'. apply Hpq. by apply list_elem_of_further.
Qed.



(** ** The heap under the element operations *)

Lemma tag_of_alter_children f d σ l :
  (∀ e, tag (f e) = tag e) → tag_of (alter f d σ) l = tag_of σ l.
Proof.
  intros Hf. unfold tag_of. destruct (decide (d = l)) as [->|Hne].
  - rewrite lookup_alter_eq. destruct (σ !! l); simpl; [by rewrite Hf|done].
  - by rewrite lookup_alter_ne.
Qed.


Lemma children_of_alter cs d σ e :
  σ !! d = Some e → children_of (alter (with_children cs) d σ) d = cs.
Proof. intros He. unfold children_of. by rewrite lookup_alter_eq, He. Qed.



Lemma fresh_not_in_dom (σ : heap) : σ !! fresh (dom σ) = None.
Proof. apply not_elem_of_dom, is_fresh. Qed.

(** ** What [__setattr__], [__getattr__] and [__delattr__] do to the heap *)

Section ModelFacts.
Context `{Runtime}.

Lemma ordinary_eqb name :
  ordinary name →
  String.eqb name "version" = false ∧ String.eqb name "IsAlso" = false.
Proof. intros [? ?]. split; by apply String.eqb_neq. Qed.






Lemma tag_of_drop_old doc name (σ : heap) l :
  tag_of (drop_old doc name σ) l = tag_of σ l.
Proof. unfold drop_old. by apply tag_of_alter_children. Qed.

Lemma has_tag_drop_old doc name (σ : heap) t l :
  has_tag (drop_old doc name σ) t l = has_tag σ t l.
Proof. unfold has_tag. by rewrite tag_of_drop_old. Qed.







Lemma getattr_run self name σ :
  ordinary name →
  __getattr__ self name σ =
    (match List.find (has_tag σ name) (children_of σ (__document__ self)) with
     | None =>
         Raise (_attribute_error ["Attribute not found."] (Some name)
                                 (Some self))
     | Some element =>
         Ok (if Dict.contains "version" (attrib_of σ element)
             then VModel (mkDynamicModel element)
             else opt_str (text_of σ element))
     end, σ).
Proof.
  intros [Hv Hi]%ordinary_eqb. unfold __getattr__. rewrite Hv, Hi.
  unfold mbind, M_bind, bind, ET.find, gets. simpl.
  destruct (List.find _ _) as [el|]; [|done].
  by destruct (Dict.contains _ _).
Qed.

Lemma delattr_run self name σ :
  __delattr__ self name σ =
    match List.find (has_tag σ name) (children_of σ (__document__ self)) with
    | None =>
        (Raise (_attribute_error ["Attribute not found."] (Some name)
                                 (Some self)), σ)
    | Some _ => (Ok tt, drop_old (__document__ self) name σ)
    end.
Proof.
  unfold __delattr__, mbind, M_bind, bind, ET.find, gets, ET.remove. simpl.
  destruct (List.find _ _) as [el|] eqn:Hf; [|done].
  by rewrite (find_remove_first _ _ _ Hf).
Qed.





End ModelFacts.

(** ** Setting, getting and deleting attributes *)









(** Setting the integer 4567 and getting it back returns the text "4567". *)
Example set_4567_get :
  ((__setattr__ (H := cpython) (mkDynamicModel 1) "SNMPProfileID" (VInt 4567);;
    __getattr__ (H := cpython) (mkDynamicModel 1) "SNMPProfileID")
     device_heap).1 =
  Ok (VStr "4567").
Proof. vm_compute. reflexivity. Qed.





(** ** The filter compiler *)

(** Induction on a tree, and on an expression, with the hypothesis for
    every element of the lists they nest. *)
Lemma XmlTree_nested_ind (P : XmlTree → Prop) :
  (∀ t a txt tl cs, Forall P cs → P (XmlNode t a txt tl cs)) →
  ∀ t, P t.
Proof.
  intros Hnode. fix IH 1. intros [tg a txt tl cs]. apply Hnode.
  induction cs as [|c cs IHcs]; constructor; [apply IH|apply IHcs].
Qed.

Lemma Expression_nested_ind (P : Expression → Prop) :
  (∀ p op v ic, P (AttributeComparison p op v ic)) →
  (∀ o, P o → P (Not o)) →
  (∀ os, Forall P os → P (And os)) →
  (∀ os, Forall P os → P (Or os)) →
  ∀ e, P e.
Proof.
  intros Hcmp Hnot Hand Hor. fix IH 1.
  assert (∀ os, Forall P os) as Hall.
  { intros os. induction os as [|o os IHos]; constructor; [apply IH|apply IHos]. }
  intros [p op v ic|o|os|os].
  - apply Hcmp.
  - apply Hnot, IH.
  - apply Hand, Hall.
  - apply Hor, Hall.
Qed.

Lemma represents_in_unfold P (σ : heap) l tg a tx tl ts :
  represents_in P σ l (XmlNode tg a tx tl ts) ↔
  P l ∧ ∃ cs, σ !! l = Some (mkElement tg a tx tl cs) ∧
              Forall2 (represents_in P σ) cs ts.
Proof.
  simpl. split.
  - intros (HP & cs & He & Hall). split; [done|]. exists cs. split; [done|].
    clear He. revert cs Hall.
    induction ts as [|t ts IH]; intros [|c cs] Hall; try done.
    destruct Hall as [Hc Hall]. constructor; [done|]. by apply IH.
  - intros (HP & cs & He & Hall). split; [done|]. exists cs. split; [done|].
    clear He. induction Hall as [|c t cs ts Hc Hall IH]; [done|]. by split.
Qed.

Lemma represents_in_weaken (P Q : loc → Prop) (σ : heap) l t :
  (∀ k, P k → Q k) → represents_in P σ l t → represents_in Q σ l t.
Proof.
  intros HPQ. revert l.
  induction t as [tg a tx tl ts IH] using XmlTree_nested_ind. intros l.
  rewrite !represents_in_unfold. intros (HP & cs & He & Hall).
  split; [by apply HPQ|]. exists cs. split; [done|].
  clear He. revert IH. induction Hall as [|c t cs ts Hc Hall IHall]; intros IH.
  - constructor.
  - inversion IH; subst. constructor; [by auto|by apply IHall].
Qed.

(** A tree stays represented when the heap keeps the objects it is made
    of. *)
Lemma represents_in_frame (P : loc → Prop) (σ σ' : heap) l t :
  (∀ k, P k → k ∈ dom σ → σ' !! k = σ !! k) →
  represents_in P σ l t → represents_in P σ' l t.
Proof.
  intros Hframe. revert l.
  induction t as [tg a tx tl ts IH] using XmlTree_nested_ind. intros l.
  rewrite !represents_in_unfold. intros (HP & cs & He & Hall).
  split; [done|]. exists cs. split.
  - rewrite Hframe; [done|done|]. apply elem_of_dom. by eexists.
  - clear He. revert IH.
    induction Hall as [|c t cs ts Hc Hall IHall]; intros IH.
    + constructor.
    + inversion IH; subst. constructor; [by auto|by apply IHall].
Qed.

Lemma represents_in_root (P : loc → Prop) (σ : heap) l t :
  represents_in P σ l t → P l.
Proof. destruct t. by intros [? _]. Qed.

Lemma frame_dom (σ σ' : heap) :
  (∀ k, k ∈ dom σ → σ' !! k = σ !! k) → dom σ ⊆ dom σ'.
Proof.
  intros Hframe k Hk. apply elem_of_dom. rewrite (Hframe k Hk).
  by apply elem_of_dom.
Qed.

(** The loop of [_Operator.__toxml__] over the operands. *)
Lemma operands_loop (D : gset loc) p cls os :
  p ∈ D →
  Forall toxml_ok os →
  forallb scalar_expr os = true →
  ∀ (σ : heap) cs ts,
    D ⊆ dom σ →
    σ !! p = Some (mkElement cls [] None None cs) →
    Forall2 (represents_in (λ k, k ∉ D) σ) cs ts →
    ∃ σ' cs',
      for_each (λ o, c ← __toxml__ o; ET.append p c) os σ = (Ok tt, σ') ∧
      D ⊆ dom σ' ∧
      σ' !! p = Some (mkElement cls [] None None cs') ∧
      Forall2 (represents_in (λ k, k ∉ D) σ') cs'
        (ts ++ map compiled os)%list ∧
      (∀ k, k ∈ dom σ → k ≠ p → σ' !! k = σ !! k).
Proof.
  intros Hp Hos. induction Hos as [|o os Ho Hos IH]; simpl; intros Hsc σ cs ts HD Hcell Hcs.
  - exists σ, cs. rewrite app_nil_r. done.
  - apply andb_true_iff in Hsc as [Hsco Hscos].
    destruct (Ho Hsco σ) as (c & σ1 & Hrun & Hc & Hframe).
    unfold mbind, M_bind, bind. rewrite Hrun.
    unfold ET.append, modify.
    set (σ2 := alter (λ e, with_children (children e ++ [c]) e) p σ1).
    assert (σ1 !! p = Some (mkElement cls [] None None cs)) as Hcell1.
    { rewrite Hframe; [done|]. by apply HD. }
    assert (∀ k, k ∉ D → σ2 !! k = σ1 !! k) as Hframe2.
    { intros k Hk. unfold σ2. rewrite lookup_alter_ne; [done|].
      intros ->. done. }
    destruct (IH Hscos σ2 (cs ++ [c])%list (ts ++ [compiled o])%list)
      as (σ' & cs' & Hloop & HD' & Hcell' & Hcs' & Hframe').
    + unfold σ2. rewrite dom_alter_L.
      etrans; [exact HD|]. by apply frame_dom.
    + unfold σ2. by rewrite lookup_alter_eq, Hcell1.
    + apply Forall2_app.
      * eapply Forall2_impl; [exact Hcs|]. intros c0 t0 H0. simpl in H0.
        apply (represents_in_frame _ σ1); [by intros; apply Hframe2|].
        apply (represents_in_frame _ σ); [by intros; apply Hframe|done].
      * constructor; [|constructor].
        apply (represents_in_frame _ σ1); [by intros; apply Hframe2|].
        eapply represents_in_weaken; [|exact Hc].
        intros k Hk HkD. apply Hk. by apply HD.
    + exists σ', cs'. split; [exact Hloop|]. split; [done|]. split; [done|].
      split.
      * by rewrite <- app_assoc in Hcs'.
      * intros k Hk Hkp. rewrite Hframe'; [| |done].
        -- unfold σ2. rewrite lookup_alter_ne by done. by apply Hframe.
        -- unfold σ2. rewrite dom_alter_L. by apply (frame_dom σ).
Qed.

Lemma operator_toxml_ok cls os :
  Forall toxml_ok os →
  forallb scalar_expr os = true →
  ∀ σ : heap, ∃ l σ',
    _Operator__toxml__ __toxml__ cls os σ = (Ok l, σ') ∧
    represents_in (λ k, k ∉ dom σ) σ' l
      (XmlNode cls [] None None (map compiled os)) ∧
    (∀ k, k ∈ dom σ → σ' !! k = σ !! k).
Proof.
  intros Hos Hsc σ.
  unfold _Operator__toxml__.
  unfold mbind at 1, M_bind at 1, bind at 1, ET.Element at 1, alloc at 1. cbv zeta.
  set (p := fresh (dom σ)).
  set (σ0 := <[p := mkElement cls [] None None []]> σ).
  assert (p ∉ dom σ) as Hp by apply is_fresh.
  destruct (operands_loop (dom σ0) p cls os) with (σ := σ0) (cs := @nil loc)
    (ts := @nil XmlTree) as (σ' & cs' & Hloop & HD & Hcell & Hcs & Hframe);
    try done.
  - unfold σ0. rewrite dom_insert_L. set_solver.
  - unfold σ0. by rewrite lookup_insert_eq.
  - unfold mbind at 1, M_bind at 1, bind at 1. rewrite Hloop.
    exists p, σ'. split; [done|]. split.
    + apply represents_in_unfold. split; [done|]. exists cs'. split; [done|].
      eapply Forall2_impl; [exact Hcs|]. intros c t Hc. simpl in Hc.
      eapply represents_in_weaken; [|exact Hc].
      intros k Hk Hkσ. apply Hk. unfold σ0. rewrite dom_insert_L. set_solver.
    + intros k Hk. rewrite Hframe.
      * unfold σ0. rewrite lookup_insert_ne; [done|]. by intros ->.
      * unfold σ0. rewrite dom_insert_L. set_solver.
      * by intros ->.
Qed.

Lemma toxml_spec e : toxml_ok e.
Proof.
  induction e as [p op v ic|o IH|os IH|os IH] using Expression_nested_ind.
  - intros Hsc σ. simpl in Hsc.
    destruct (scalar_types_encode _ Hsc) as [s Hs].
    assert (fresh (dom σ) ∉ dom σ) as Hp by apply is_fresh.
    simpl. unfold encoded.
    unfold mbind, M_bind, bind, mret, M_ret, ret, ET.Element, alloc, lift,
      ET.set_text, ET.set, modify.
    rewrite Hs.
    destruct ic; (eexists _, _; split; [reflexivity|]; split;
      [ split; [done|]; eexists; split;
        [by rewrite ?lookup_alter_eq, lookup_insert_eq|done]
      | intros k Hk; assert (k ≠ fresh (dom σ)) by (by intros ->);
        by rewrite ?lookup_alter_ne, lookup_insert_ne ]).
  - intros Hsc. simpl in *. apply operator_toxml_ok.
    + by constructor.
    + simpl. by rewrite Hsc.
  - intros Hsc. simpl in *. by apply operator_toxml_ok.
  - intros Hsc. simpl in *. by apply operator_toxml_ok.
Qed.

Lemma read_tree_represents fuel (σ : heap) l t :
  read_tree fuel σ l = Some t → represents σ l t.
Proof.
  revert l t. induction fuel as [|fuel IH]; intros l t; simpl; [done|].
  destruct (σ !! l) as [e|] eqn:He; simpl; [|done].
  destruct (mapM _ _) as [ts|] eqn:Hts; simpl; [|done].
  intros [= <-]. apply represents_in_unfold. split; [done|].
  exists (children e). split; [by destruct e|].
  apply mapM_Some in Hts. eapply Forall2_impl; [exact Hts|].
  intros c t Hc. by apply IH.
Qed.

(** C5. Compiling a filter expression whose comparisons hold scalars
    returns a new element that represents [compiled e]: for a comparison an
    element tagged with the property name, whose attributes are [type], the
    operator name, followed by [ignoreCase], "true", exactly when the flag
    is set, and whose text is the encoded value; for [Not], [And] and [Or]
    an element tagged "Not", "And" or "Or" whose children are the compiled
    operands in order.  The objects that were in the heap are unchanged. *)
Theorem C5_toxml (e : Expression) (σ : heap) :
  scalar_expr e = true →
  ∃ l σ',
    __toxml__ e σ = (Ok l, σ') ∧
    represents σ' l (compiled e) ∧
    (l ∉ dom σ) ∧
    (∀ k, k ∈ dom σ → σ' !! k = σ !! k).
Proof.
  intros Hsc. destruct (toxml_spec e Hsc σ) as (l & σ' & Hrun & Hrep & Hframe).
  exists l, σ'. split; [done|]. split; [|split; [|done]].
  - by eapply represents_in_weaken; [|exact Hrep].
  - by apply represents_in_root in Hrep.
Qed.

Lemma C5_toxml_witness :
  ∃ l σ',
    __toxml__ complex_filter ∅ = (Ok l, σ') ∧
    represents σ' l (compiled complex_filter) ∧
    (l ∉ dom (∅ : heap)) ∧
    (∀ k, k ∈ dom (∅ : heap) → σ' !! k = (∅ : heap) !! k).
Proof. apply (C5_toxml complex_filter ∅). reflexivity. Defined.

(** [testAttributeComparison] and [testComplex] of the test suite. *)
Example toxml_testAttributeComparison :
  let r := __toxml__ (AttributeComparison "DataCollectionMgrId.PrevMDRItemID"
                        EQUAL (VInt 1234) false) ∅ in
  (l ← match r.1 with Ok l => Some l | Raise _ => None end;
   read_tree 2 r.2 l) =
  Some (XmlNode "DataCollectionMgrId.PrevMDRItemID" [("type", "EQUAL")]
          (Some "1234") None []).
Proof. vm_compute. reflexivity. Qed.

Example toxml_ignoreCase :
  let r := __toxml__ (AttributeComparison "ManageableDevice.SystemName"
                        STARTS_WITH (VStr "core") true) ∅ in
  (l ← match r.1 with Ok l => Some l | Raise _ => None end;
   read_tree 2 r.2 l) =
  Some (XmlNode "ManageableDevice.SystemName"
          [("type", "STARTS_WITH"); ("ignoreCase", "true")]
          (Some "core") None []).
Proof. vm_compute. reflexivity. Qed.

Example toxml_testComplex :
  let r := __toxml__ complex_filter ∅ in
  (l ← match r.1 with Ok l => Some l | Raise _ => None end;
   read_tree 4 r.2 l) =
  Some
    (XmlNode "Not" [] None None
       [XmlNode "Or" [] None None
          [XmlNode "ManageableDevice.Model" [("type", "CONTAINS")]
             (Some "ISR4479") None [];
           XmlNode "DataCollectionMgrId.PrevMDRItemID"
             [("type", "LESS_OR_EQUAL")] (Some "789") None [];
           XmlNode "And" [] None None
             [XmlNode "Lifecycle.State" [("type", "EQUAL")]
                (Some "RETIRED") None [];
              XmlNode "ManageableDevice.SystemName" [("type", "ENDS_WITH")]
                (Some ".my-org.com") None []]]]).
Proof. vm_compute. reflexivity. Qed.

(** A comparison that holds no scalar raises [TypeError] when compiled. *)
Example toxml_not_scalar :
  (__toxml__ (AttributeComparison "Lifecycle.State" EQUAL VNone false) ∅).1 =
  Raise (TypeError "Value must be of type str, int, float or bool.").
Proof. vm_compute. reflexivity. Qed.

(** ** The response of a filtered list *)

Lemma CaseInsensitiveDict_lookup_store_eq k kv d :
  CaseInsensitiveDict.lookup k (CaseInsensitiveDict.store k kv d) = Some kv.
Proof.
  induction d as [|[k' kv'] r IH]; simpl.
  - by rewrite String.eqb_refl.
  - destruct (String.eqb k' k) eqn:E; simpl.
    + by rewrite String.eqb_refl.
    + by rewrite E.
Qed.

Lemma CaseInsensitiveDict_lookup_store_ne k k' kv d :
  k ≠ k' →
  CaseInsensitiveDict.lookup k' (CaseInsensitiveDict.store k kv d) =
  CaseInsensitiveDict.lookup k' d.
Proof.
  intros Hne. induction d as [|[k0 kv0] r IH]; simpl.
  - by destruct (String.eqb_spec k k').
  - destruct (String.eqb_spec k0 k) as [->|Hk]; simpl.
    + by destruct (String.eqb_spec k k').
    + by rewrite IH.
Qed.

(** The header name is looked up whatever its case. *)
Lemma CaseInsensitiveDict_getitem_setitem name name' value d :
  PyStr.lower name = PyStr.lower name' →
  CaseInsensitiveDict.getitem (CaseInsensitiveDict.setitem name value d) name'
  = Ok value.
Proof.
  intros Hl. unfold CaseInsensitiveDict.getitem, CaseInsensitiveDict.setitem.
  by rewrite <- Hl, CaseInsensitiveDict_lookup_store_eq.
Qed.

Section ClientFacts.
Context `{XmlText}.

Lemma parse_run response σ :
  _parse_xml_response_data response σ =
    match CaseInsensitiveDict.getitem (headers response) "content-type" with
    | Raise e => (Raise e, σ)
    | Ok ct =>
        if is_xml (PyStr.casefold ct) then
          match fromstring (content response) σ with
          | (Some root, σ') => (Ok root, σ')
          | (None, σ') => (Raise ParseError, σ')
          end
        else (Raise (not_xml_error (PyStr.casefold ct)), σ)
    end.
Proof.
  unfold _parse_xml_response_data, mbind, M_bind, bind, lift. simpl.
  destruct (CaseInsensitiveDict.getitem _ _) as [ct|e]; [|done].
  unfold is_xml. simpl.
  destruct (String.eqb _ _); simpl; [done|].
  by destruct (PyStr.startswith _ _).
Qed.

(** [filtered_get_list], once the request is built, sent and answered
    with a status that is no error, is the validation and the parse of
    the response. *)
Lemma filtered_get_list_run self service_uri filter σ data σ1 response :
  _filter_select filter σ = (Ok data, σ1) →
  post (session self) (_create_url self service_uri "filtered") data
    [_Headers.accept; _Headers.content_type] = Ok response →
  raise_for_status response = Ok tt →
  filtered_get_list self service_uri filter σ =
    match _parse_xml_response_data response σ1 with
    | (Ok document, σ') => (Ok (mkGenerator document 0), σ')
    | (Raise e, σ') => (Raise e, σ')
    end.
Proof.
  intros Hdata Hpost Hstatus.
  unfold filtered_get_list, mbind, M_bind, bind, lift.
  rewrite Hdata, Hpost, Hstatus.
  by destruct (_parse_xml_response_data response σ1) as [[?|?] ?].
Qed.
End ClientFacts.

(** C7. A response whose [Content-Type], case-folded, is neither
    "application/xml" nor starts with "application/xml;" makes
    [_parse_xml_response_data] raise [PmdaInfrastructureError] with the heap
    untouched: the body is not parsed.  So does [filtered_get_list] once the
    request was built and answered with a status that is no error: it
    returns no generator, and no child is wrapped.  A response whose
    [Content-Type] is "application/xml" or starts with "application/xml;"
    passes: the outcome is that of parsing the body.  The header is found
    whatever the case of its name. *)
Theorem C7_content_type `{XmlText} (response : Response) (ct : string) :
  CaseInsensitiveDict.getitem (headers response) "content-type" = Ok ct →
  (is_xml (PyStr.casefold ct) = false →
   (∀ σ, _parse_xml_response_data response σ =
           (Raise (not_xml_error (PyStr.casefold ct)), σ)) ∧
   (∀ self service_uri filter σ data σ1,
      _filter_select filter σ = (Ok data, σ1) →
      post (session self) (_create_url self service_uri "filtered") data
        [_Headers.accept; _Headers.content_type] = Ok response →
      raise_for_status response = Ok tt →
      filtered_get_list self service_uri filter σ =
        (Raise (not_xml_error (PyStr.casefold ct)), σ1))) ∧
  (is_xml (PyStr.casefold ct) = true →
   ∀ σ, _parse_xml_response_data response σ =
          match fromstring (content response) σ with
          | (Some root, σ') => (Ok root, σ')
          | (None, σ') => (Raise ParseError, σ')
          end) ∧
  (∀ name value hs,
     PyStr.lower name = "content-type" →
     CaseInsensitiveDict.getitem (CaseInsensitiveDict.setitem name value hs)
       "content-type" = Ok value).
Proof.
  intros Hct. split; [|split].
  - intros Hx. split.
    + intros σ. by rewrite parse_run, Hct, Hx.
    + intros self service_uri filter σ data σ1 Hdata Hpost Hstatus.
      rewrite (filtered_get_list_run _ _ _ _ _ _ _ Hdata Hpost Hstatus).
      by rewrite parse_run, Hct, Hx.
  - intros Hx σ. by rewrite parse_run, Hct, Hx.
  - intros name value hs Hname.
    by apply CaseInsensitiveDict_getitem_setitem.
Qed.

Lemma C7_content_type_witness :
  let plain := response_200 [("Content-Type", "text/plain")] "no" in
  let xml := response_200 [("Content-Type", "Application/XML; charset=UTF-8")]
               "<List/>" in
  (∃ σ1, filtered_get_list (H := plain_xml) (client_of plain) "devices"
           complex_filter ∅ = (Raise (not_xml_error "text/plain"), σ1)) ∧
  (∀ σ, _parse_xml_response_data (H := plain_xml) xml σ =
          match fromstring (XmlText := plain_xml) (content xml) σ with
          | (Some root, σ') => (Ok root, σ')
          | (None, σ') => (Raise ParseError, σ')
          end).
Proof.
  split.
  - destruct (C7_content_type (H := plain_xml)
                (response_200 [("Content-Type", "text/plain")] "no")
                "text/plain" eq_refl) as [Hbad _].
    destruct (Hbad eq_refl) as [_ Hlist].
    exists (_filter_select (H := plain_xml) complex_filter ∅).2.
    apply Hlist
      with (data := match (_filter_select (H := plain_xml) complex_filter
                             ∅).1 with
                    | Ok data => data
                    | Raise _ => ""
                    end).
    + vm_compute. reflexivity.
    + reflexivity.
    + reflexivity.
  - destruct (C7_content_type (H := plain_xml)
                (response_200
                   [("Content-Type", "Application/XML; charset=UTF-8")]
                   "<List/>")
                "Application/XML; charset=UTF-8" eq_refl) as (_ & Hxml & _).
    apply Hxml. reflexivity.
Defined.

(** The response of the specification: [Content-Type: text/plain]. *)
Example filtered_get_list_text_plain :
  (filtered_get_list (H := plain_xml)
     (client_of (response_200 [("Content-Type", "text/plain")] "no"))
     "devices" complex_filter ∅).1 =
  Raise (PmdaInfrastructureError
           "CA PM DA client requested XML, but got text/plain instead.").
Proof. vm_compute. reflexivity. Qed.

(** C10. A response without a [Content-Type] header makes
    [_parse_xml_response_data], and [filtered_get_list] once the request
    was built and answered with a status that is no error, raise the
    [KeyError] of the header lookup, which is no [PmdaInfrastructureError].
    [PmdaInfrastructureError] is raised only for a response that has the
    header, with a value that is not XML. *)
Theorem C10_missing_content_type `{XmlText} (response : Response) :
  CaseInsensitiveDict.lookup "content-type" (headers response) = None →
  (∀ σ, _parse_xml_response_data response σ =
          (Raise (KeyError "content-type"), σ)) ∧
  (∀ self service_uri filter σ data σ1,
     _filter_select filter σ = (Ok data, σ1) →
     post (session self) (_create_url self service_uri "filtered") data
       [_Headers.accept; _Headers.content_type] = Ok response →
     raise_for_status response = Ok tt →
     filtered_get_list self service_uri filter σ =
       (Raise (KeyError "content-type"), σ1)) ∧
  (∀ msg, KeyError "content-type" ≠ PmdaInfrastructureError msg) ∧
  (∀ (other : Response) σ msg σ',
     _parse_xml_response_data other σ =
       (Raise (PmdaInfrastructureError msg), σ') →
     ∃ ct, CaseInsensitiveDict.getitem (headers other) "content-type" = Ok ct ∧
           is_xml (PyStr.casefold ct) = false ∧
           msg = "CA PM DA client requested XML, but got " ++
                 PyStr.casefold ct ++ " instead." ∧
           σ' = σ).
Proof.
  intros Hnone.
  assert (CaseInsensitiveDict.getitem (headers response) "content-type" =
          Raise (KeyError "content-type")) as Hget.
  { unfold CaseInsensitiveDict.getitem.
    change (PyStr.lower "content-type") with "content-type".
    by rewrite Hnone. }
  split; [|split; [|split]].
  - intros σ. by rewrite parse_run, Hget.
  - intros self service_uri filter σ data σ1 Hdata Hpost Hstatus.
    rewrite (filtered_get_list_run _ _ _ _ _ _ _ Hdata Hpost Hstatus).
    by rewrite parse_run, Hget.
  - discriminate.
  - intros other σ msg σ'. rewrite parse_run. clear Hnone Hget.
    destruct (CaseInsensitiveDict.getitem (headers other) "content-type")
      as [ct|e] eqn:Hg.
    + destruct (is_xml _) eqn:Hx.
      * by destruct (fromstring _ _) as [[?|] ?].
      * intros [= <- <-]. by exists ct.
    + unfold CaseInsensitiveDict.getitem in Hg.
      destruct (CaseInsensitiveDict.lookup _ _); [done|].
      injection Hg as <-. discriminate.
Qed.

Lemma C10_missing_content_type_witness :
  ∃ σ1, filtered_get_list (H := plain_xml)
          (client_of (response_200 [("Content-Length", "2")] "no"))
          "devices" complex_filter ∅ =
        (Raise (KeyError "content-type"), σ1).
Proof.
  destruct (C10_missing_content_type (H := plain_xml)
              (response_200 [("Content-Length", "2")] "no") eq_refl)
    as (_ & Hlist & _).
  exists (_filter_select (H := plain_xml) complex_filter ∅).2.
  apply Hlist
    with (data := match (_filter_select (H := plain_xml) complex_filter
                           ∅).1 with
                  | Ok data => data
                  | Raise _ => ""
                  end).
  - vm_compute. reflexivity.
  - reflexivity.
  - reflexivity.
Defined.

(** ** Rendering a model *)

Lemma unchanged_on_refl D (σ : heap) : unchanged_on D σ σ.
Proof. by intros k _. Qed.

Lemma unchanged_on_trans D (σ1 σ2 σ3 : heap) :
  unchanged_on D σ1 σ2 → unchanged_on D σ2 σ3 → unchanged_on D σ1 σ3.
Proof. intros H12 H23 k Hk. by rewrite H23, H12. Qed.

Lemma unchanged_on_mono (D D' : gset loc) (σ σ' : heap) :
  D ⊆ D' → unchanged_on D' σ σ' → unchanged_on D σ σ'.
Proof. intros HD Hu k Hk. apply Hu. by apply HD. Qed.

Lemma unchanged_on_dom (σ σ' : heap) :
  unchanged_on (dom σ) σ σ' → dom σ ⊆ dom σ'.
Proof. apply frame_dom. Qed.

Lemma unchanged_on_alter D f l (σ : heap) :
  l ∉ D → unchanged_on D σ (alter f l σ).
Proof. intros Hl k Hk. rewrite lookup_alter_ne; [done|]. by intros ->. Qed.

Lemma unchanged_on_alloc e (σ : heap) :
  unchanged_on (dom σ) σ (<[fresh (dom σ) := e]> σ).
Proof.
  intros k Hk. rewrite lookup_insert_ne; [done|].
  intros <-. by apply is_fresh in Hk.
Qed.

Lemma children_of_alter_same f l (σ : heap) k :
  (∀ e, children (f e) = children e) →
  children_of (alter f l σ) k = children_of σ k.
Proof.
  intros Hf. unfold children_of. destruct (decide (l = k)) as [->|Hne].
  - rewrite lookup_alter_eq. destruct (σ !! k); simpl; [by rewrite Hf|done].
  - by rewrite lookup_alter_ne.
Qed.

Lemma touches_new_refl D (σ : heap) : touches_new D σ σ.
Proof. split; [apply unchanged_on_refl|done]. Qed.

Lemma touches_new_trans D (σ1 σ2 σ3 : heap) :
  touches_new D σ1 σ2 → touches_new D σ2 σ3 → touches_new D σ1 σ3.
Proof.
  intros [Hu12 Hc12] [Hu23 Hc23]. split.
  - by eapply unchanged_on_trans.
  - intros k. by rewrite Hc23, Hc12.
Qed.

Lemma touches_new_alter D f l (σ : heap) :
  l ∉ D → (∀ e, children (f e) = children e) →
  touches_new D σ (alter f l σ).
Proof.
  intros Hl Hf. split; [by apply unchanged_on_alter|].
  intros k. by apply children_of_alter_same.
Qed.

Lemma new_closed_touches D (σ σ' : heap) :
  new_closed D σ → touches_new D σ σ' → new_closed D σ'.
Proof. intros Hn [_ Hc] k Hk. rewrite Hc. by apply Hn. Qed.

(** ** [deepcopy] writes to new objects only *)

Section Rendering.
Context `{Runtime} `{XmlText}.

Lemma copy_children_ok D copy cs :
  (∀ c, copy_ok D (λ y, y ∉ D) (copy c)) →
  copy_ok D (Forall (λ y, y ∉ D)) (copy_children copy cs).
Proof.
  intros Hcopy. induction cs as [|c cs IH]; intros memo σ r σ' HD Hn Hm.
  - simpl. intros [= <- <-]. split; [apply unchanged_on_refl|done].
  - simpl. unfold mbind, M_bind, bind.
    destruct (copy c memo σ) as [[[y memo1]|e] σ1] eqn:Hc.
    + destruct (Hcopy c memo σ _ _ HD Hn Hm Hc) as (Hu1 & Hy & Hn1 & Hm1).
      simpl.
      destruct (copy_children copy cs memo1 σ1) as [[[ys memo2]|e] σ2] eqn:Hcs.
      * assert (D ⊆ dom σ1) as HD1.
        { etrans; [exact HD|]. by apply unchanged_on_dom. }
        destruct (IH memo1 σ1 _ _ HD1 Hn1 Hm1 Hcs) as (Hu2 & Hys & Hn2 & Hm2).
        intros [= <- <-]. simpl. split.
        -- eapply unchanged_on_trans; [exact Hu1|].
           eapply unchanged_on_mono; [|exact Hu2]. by apply unchanged_on_dom.
        -- split; [by constructor|done].
      * assert (D ⊆ dom σ1) as HD1.
        { etrans; [exact HD|]. by apply unchanged_on_dom. }
        destruct (IH memo1 σ1 _ _ HD1 Hn1 Hm1 Hcs) as (Hu2 & _).
        intros [= <- <-]. split; [|done].
        eapply unchanged_on_trans; [exact Hu1|].
        eapply unchanged_on_mono; [|exact Hu2]. by apply unchanged_on_dom.
    + destruct (Hcopy c memo σ _ _ HD Hn Hm Hc) as (Hu1 & _).
      intros [= <- <-]. done.
Qed.

Lemma new_closed_alloc D t a (σ : heap) :
  D ⊆ dom σ → new_closed D σ →
  new_closed D (<[fresh (dom σ) := mkElement t a None None []]> σ).
Proof.
  intros HD Hn k Hk. unfold children_of.
  destruct (decide (fresh (dom σ) = k)) as [<-|Hne].
  - rewrite lookup_insert_eq. constructor.
  - rewrite lookup_insert_ne by done. by apply Hn.
Qed.

Lemma new_closed_set_children D ys l (σ : heap) :
  Forall (λ y, y ∉ D) ys → new_closed D σ →
  new_closed D (alter (with_children ys) l σ).
Proof.
  intros Hys Hn k Hk. unfold children_of.
  destruct (decide (l = k)) as [->|Hne].
  - rewrite lookup_alter_eq. destruct (σ !! k); simpl; [done|constructor].
  - rewrite lookup_alter_ne by done. by apply Hn.
Qed.

Lemma deepcopy_ok D fuel x : copy_ok D (λ y, y ∉ D) (deepcopy fuel x).
Proof.
  revert x. induction fuel as [|fuel IH]; intros x memo σ r σ' HD Hn Hm.
  - simpl. destruct (memo !! x) as [y|] eqn:Hx.
    + intros [= <- <-]. split; [apply unchanged_on_refl|].
      split; [by eapply Hm|done].
    + intros [= <- <-]. split; [apply unchanged_on_refl|done].
  - simpl. destruct (memo !! x) as [y|] eqn:Hx.
    + intros [= <- <-]. split; [apply unchanged_on_refl|].
      split; [by eapply Hm|done].
    + unfold mbind at 1 2 3 4 5 6 7 8, M_bind at 1 2 3 4 5 6 7 8,
        bind at 1 2 3 4 5 6 7 8, gets, ET.Element, alloc, ET.set_text, ET.set_tail,
        modify.
      cbv zeta.
      set (l := fresh (dom σ)).
      unfold mbind at 1, M_bind at 1, bind at 1.
      match goal with
      | |- context [copy_children _ ?cs memo ?σc] =>
          set (σ3 := σc)
      end.
      assert (l ∉ dom σ) as Hl by apply is_fresh.
      assert (l ∉ D) as HlD by (intros Hin; by apply Hl, HD).
      assert (unchanged_on (dom σ) σ σ3) as Hu3.
      { unfold σ3. intros k Hk.
        rewrite !lookup_alter_ne, lookup_insert_ne; [done|..];
          by intros <-. }
      assert (new_closed D σ3) as Hn3.
      { unfold σ3.
        eapply new_closed_touches; [|by apply touches_new_alter].
        eapply new_closed_touches; [|by apply touches_new_alter].
        by apply new_closed_alloc. }
      assert (D ⊆ dom σ3) as HD3.
      { etrans; [exact HD|]. by apply unchanged_on_dom. }
      set (cs0 := children_of σ3 x).
      destruct (copy_children (deepcopy fuel) cs0 memo σ3)
        as [[[ys memo1]|e] σ4] eqn:Hcs.
      * destruct (copy_children_ok D (deepcopy fuel) cs0 IH memo σ3 _ _
                    HD3 Hn3 Hm Hcs) as (Hu4 & Hys & Hn4 & Hm4).
        unfold mbind, M_bind, bind, mret, M_ret, ret. simpl.
        intros [= <- <-]. split; [|split; [done|split]].
        -- eapply unchanged_on_trans; [exact Hu3|].
           eapply unchanged_on_trans.
           ++ eapply unchanged_on_mono; [|exact Hu4].
              by apply unchanged_on_dom.
           ++ by apply unchanged_on_alter.
        -- by apply new_closed_set_children.
        -- intros x' y'. destruct (decide (x = x')) as [->|Hne].
           ++ rewrite lookup_insert_eq. by intros [= <-].
           ++ rewrite lookup_insert_ne by done. apply Hm4.
      * destruct (copy_children_ok D (deepcopy fuel) cs0 IH memo σ3 _ _
                    HD3 Hn3 Hm Hcs) as (Hu4 & _).
        intros [= <- <-]. split; [|done].
        eapply unchanged_on_trans; [exact Hu3|].
        eapply unchanged_on_mono; [|exact Hu4]. by apply unchanged_on_dom.
Qed.

(** ** [indent] writes to the text and the tail of new objects only *)

Lemma touches_if_set D (b : bool) f l (σ : heap) r σ' :
  l ∉ D → (∀ e, children (f e) = children e) →
  (if b then modify (alter f l) else mret tt) σ = (r, σ') →
  touches_new D σ σ' ∧ r = Ok tt.
Proof.
  intros Hl Hf. destruct b; intros [= <- <-].
  - split; [by apply touches_new_alter|done].
  - split; [apply touches_new_refl|done].
Qed.

Lemma for_each_touches D (body : loc → M unit) cs :
  (∀ c (σ : heap) r σ',
     c ∈ cs → new_closed D σ → body c σ = (r, σ') → touches_new D σ σ') →
  ∀ (σ : heap) r σ',
    new_closed D σ → for_each body cs σ = (r, σ') → touches_new D σ σ'.
Proof.
  induction cs as [|c cs IH]; intros Hbody σ r σ' Hn; simpl.
  - intros [= <- <-]. apply touches_new_refl.
  - unfold mbind, M_bind, bind.
    destruct (body c σ) as [[[]|e] σ1] eqn:Hc.
    + assert (touches_new D σ σ1) as Ht1.
      { eapply Hbody; [apply list_elem_of_here|done|done]. }
      intros Hrest. eapply touches_new_trans; [exact Ht1|].
      eapply IH; [|by eapply new_closed_touches|exact Hrest].
      intros c' σ0 r0 σ0' Hc'. apply Hbody. by apply list_elem_of_further.
    + intros [= <- <-].
      eapply Hbody; [apply list_elem_of_here|done|done].
Qed.

Lemma last_elem_of (cs : list loc) c : last cs = Some c → c ∈ cs.
Proof.
  induction cs as [|c' [|c'' cs] IH]; simpl; [done| |].
  - intros [= ->]. apply list_elem_of_here.
  - intros Hl. apply list_elem_of_further. by apply IH.
Qed.

Lemma indent_children_touches D fuel elem level (σ : heap) r σ' :
  new_closed D σ → elem ∉ D →
  _indent_children fuel elem level σ = (r, σ') → touches_new D σ σ'.
Proof.
  revert elem level σ r σ'.
  induction fuel as [|fuel IH]; intros elem level σ r σ' Hn Helem; simpl.
  - intros [= <- <-]. apply touches_new_refl.
  - unfold mbind at 1 2 3 4, M_bind at 1 2 3 4, bind at 1 2 3 4, gets at 1 2,
      ET.set_text.
    destruct ((if blank (text_of σ elem)
               then modify (alter (with_text
                                     (Some (indentation (level + 1)))) elem)
               else mret ()) σ) as [r1 σ1] eqn:H1.
    apply touches_if_set with (D := D) in H1 as [Ht1 ->]; [|done..].
    assert (new_closed D σ1) as Hn1 by by eapply new_closed_touches.
    pose proof (Hn1 elem Helem) as Hcs.
    set (cs := children_of σ1 elem) in *.
    match goal with
    | |- context [for_each ?b cs σ1] =>
        destruct (for_each b cs σ1) as [[[]|e] σ2] eqn:H2;
        apply for_each_touches with (D := D) in H2 as Ht2; try done
    end.
    + assert (new_closed D σ2) as Hn2 by by eapply new_closed_touches.
      destruct (last cs) as [child|] eqn:Hlast.
      * unfold mbind, M_bind, bind, gets, ET.set_tail. intros H3.
        apply touches_if_set with (D := D) in H3 as [Ht3 _]; [| |done].
        -- eapply touches_new_trans; [exact Ht1|].
           by eapply touches_new_trans.
        -- apply last_elem_of in Hlast.
           by apply (proj1 (Forall_forall _ _) Hcs).
      * intros [= <- <-]. by eapply touches_new_trans.
    + intros c σa ra σa' Hc Hna.
      assert (c ∉ D) as HcD by by apply (proj1 (Forall_forall _ _) Hcs).
      unfold mbind, M_bind, bind, gets, ET.set_tail.
      destruct ((if (0 <? length (children_of σa c))%nat
                 then _indent_children fuel c (level + 1)
                 else mret ()) σa) as [[[]|e] σb] eqn:Hrec.
      * assert (touches_new D σa σb) as Htb.
        { destruct (0 <? _)%nat.
          - by eapply IH.
          - injection Hrec as <-. apply touches_new_refl. }
        intros H3.
        apply touches_if_set with (D := D) in H3 as [Ht3 _]; [|done|done].
        by eapply touches_new_trans.
      * intros [= <- <-]. destruct (0 <? _)%nat; [by eapply IH|done].
    + intros [= <- <-]. by eapply touches_new_trans.
    + intros c σa ra σa' Hc Hna.
      assert (c ∉ D) as HcD by by apply (proj1 (Forall_forall _ _) Hcs).
      unfold mbind, M_bind, bind, gets, ET.set_tail.
      destruct ((if (0 <? length (children_of σa c))%nat
                 then _indent_children fuel c (level + 1)
                 else mret ()) σa) as [[[]|e'] σb] eqn:Hrec.
      * assert (touches_new D σa σb) as Htb.
        { destruct (0 <? _)%nat.
          - by eapply IH.
          - injection Hrec as <-. apply touches_new_refl. }
        intros H3.
        apply touches_if_set with (D := D) in H3 as [Ht3 _]; [|done|done].
        by eapply touches_new_trans.
      * intros [= <- <-]. destruct (0 <? _)%nat; [by eapply IH|done].
Qed.

Lemma memo_new_empty D : memo_new D ∅.
Proof. intros x y. by rewrite lookup_empty. Qed.

Lemma new_closed_dom (σ : heap) : new_closed (dom σ) σ.
Proof.
  intros k Hk. unfold children_of.
  apply not_elem_of_dom in Hk. rewrite Hk. constructor.
Qed.

(** [dump_dynamic_model] leaves every object of the heap as it was; the
    text it returns is the text of a new element. *)
Lemma dump_run (dynamic_model : DynamicModel) (σ : heap) :
  let out := dump_dynamic_model dynamic_model σ in
  unchanged_on (dom σ) σ out.2 ∧
  (∀ s, out.1 = Ok s →
        ∃ copy, (copy ∉ dom σ) ∧ tostring copy out.2 = Ok s).
Proof.
  unfold dump_dynamic_model, mbind, M_bind, bind.
  destruct (deepcopy recursion_limit (__document__ dynamic_model) ∅ σ)
    as [[[y memo]|e] σ1] eqn:Hcopy.
  - destruct (deepcopy_ok (dom σ) _ _ ∅ σ _ _ (reflexivity _)
                (new_closed_dom σ) (memo_new_empty _)
                Hcopy) as (Hu1 & Hy & Hn1 & _).
    simpl.
    assert (∃ r σ2, indent y σ1 = (r, σ2) ∧ touches_new (dom σ) σ1 σ2)
      as (r & σ2 & Hind & [Hu2 _]).
    { unfold indent, mbind, M_bind, bind, gets.
      destruct (_ =? 0)%nat.
      - eexists _, _. split; [reflexivity|]. apply touches_new_refl.
      - destruct (_indent_children recursion_limit y 0 σ1) as [r σ2] eqn:Hi.
        exists r, σ2. split; [done|].
        by eapply indent_children_touches. }
    rewrite Hind. destruct r as [[]|e]; simpl.
    + split; [by eapply unchanged_on_trans|].
      intros s Hs. by exists y.
    + split; [by eapply unchanged_on_trans|done].
  - simpl. split; [|done].
    by destruct (deepcopy_ok (dom σ) _ _ ∅ σ _ _ (reflexivity _)
                   (new_closed_dom σ) (memo_new_empty _)
                   Hcopy) as (Hu1 & _).
Qed.
End Rendering.

(** ** [deepcopy] copies a tree *)

Lemma represents_in_dom (P : loc → Prop) (σ : heap) l t :
  represents_in P σ l t → represents_in (λ k, P k ∧ k ∈ dom σ) σ l t.
Proof.
  revert l. induction t as [tg a tx tl ts IH] using XmlTree_nested_ind.
  intros l. rewrite !represents_in_unfold. intros (HP & cs & He & Hall).
  split; [split; [done|apply elem_of_dom; by eexists]|].
  exists cs. split; [done|]. clear He. revert IH.
  induction Hall as [|c t cs ts Hc Hall IHall]; intros IH.
  - constructor.
  - inversion IH; subst. constructor; [by auto|by apply IHall].
Qed.

(** An element represents one tree. *)
Lemma represents_in_functional (P Q : loc → Prop) (σ : heap) l t t' :
  represents_in P σ l t → represents_in Q σ l t' → t = t'.
Proof.
  revert l t'. induction t as [tg a tx tl ts IH] using XmlTree_nested_ind.
  intros l [tg' a' tx' tl' ts']. rewrite !represents_in_unfold.
  intros (_ & cs & He & Hall) (_ & cs' & He' & Hall').
  rewrite He in He'. injection He' as <- <- <- <- <-. f_equal.
  clear He. revert ts' Hall' IH.
  induction Hall as [|c t cs ts Hc Hall IHall]; intros ts' Hall' IH.
  - by inversion Hall'.
  - inversion Hall' as [|? t' ? ts'' Hc' Hall'']; subst.
    inversion IH as [|? ? IHt IHts]; subst. f_equal.
    + by eapply IHt.
    + by apply IHall.
Qed.

Lemma depth_children tg a tx tl ts n :
  (depth (XmlNode tg a tx tl ts) ≤ S n)%nat →
  Forall (λ t, (depth t ≤ n)%nat) ts.
Proof.
  simpl. intros Hd. apply Nat.succ_le_mono in Hd.
  induction ts as [|t ts IH]; constructor; simpl in Hd.
  - lia.
  - apply IH. lia.
Qed.

Lemma copy_children_copies D n copy cs ts :
  copies D n copy →
  ∀ (Q : loc → Prop) memo (σ : heap),
    Forall2 (represents_in (λ k, k ∈ D) σ) cs ts →
    Forall (λ t, (depth t ≤ n)%nat) ts →
    D ⊆ dom σ →
    (∀ k, k ∉ dom σ → Q k) →
    memo_copies D Q memo σ →
    ∃ ys memo' σ',
      copy_children copy cs memo σ = (Ok (ys, memo'), σ') ∧
      Forall2 (represents_in (λ k, (k ∉ D) ∧ Q k) σ') ys ts ∧
      unchanged_on (dom σ) σ σ' ∧
      memo_copies D Q memo' σ'.
Proof.
  intros Hcopy. revert ts.
  induction cs as [|c cs IH]; intros ts Q memo σ Hall Hdepth HD HQ Hm;
    inversion Hall as [|? t ? ts' Hc Hall']; subst.
  - exists [], memo, σ. simpl. repeat split; try done.
  - inversion Hdepth as [|? ? Hdt Hdts]; subst.
    destruct (Hcopy c t Q memo σ Hc Hdt HD HQ Hm)
      as (y & memo1 & σ1 & Hrun & Hy & Hu1 & Hm1).
    assert (dom σ ⊆ dom σ1) as Hdom1 by by apply unchanged_on_dom.
    destruct (IH ts' Q memo1 σ1)
      as (ys & memo2 & σ2 & Hruns & Hys & Hu2 & Hm2); try done.
    + eapply Forall2_impl; [exact Hall'|]. intros c' t' Hc'. simpl in Hc'.
      apply (represents_in_frame _ σ); [|done].
      intros k Hk _. apply Hu1. by apply HD.
    + by etrans.
    + intros k Hk. apply HQ. intros Hk'. by apply Hk, Hdom1.
    + exists (y :: ys), memo2, σ2. simpl.
      unfold mbind, M_bind, bind. rewrite Hrun. simpl. rewrite Hruns. simpl.
      split; [done|]. split; [|split; [|done]].
      * constructor; [|done].
        apply (represents_in_frame _ σ1); [|done].
        intros k _ Hk. by apply Hu2.
      * eapply unchanged_on_trans; [exact Hu1|].
        by eapply unchanged_on_mono.
Qed.

(** One call of [deepcopy] on an element that the memo does not hold. *)
Lemma deepcopy_step fuel x memo (σ : heap) e :
  memo !! x = None →
  σ !! x = Some e →
  deepcopy (S fuel) x memo σ =
    let l := fresh (dom σ) in
    let σ3 := <[l := mkElement (tag e) (attrib e) (text e) (tail e) []]> σ in
    match copy_children (deepcopy fuel) (children e) memo σ3 with
    | (Ok r, σ4) => (Ok (l, <[x := l]> r.2), alter (with_children r.1) l σ4)
    | (Raise err, σ4) => (Raise err, σ4)
    end.
Proof.
  intros Hx He. simpl. rewrite Hx.
  unfold mbind at 1 2 3 4 5 6 7 8 9, M_bind at 1 2 3 4 5 6 7 8 9,
    bind at 1 2 3 4 5 6 7 8 9, gets, ET.Element, alloc, ET.set_text,
    ET.set_tail, modify.
  cbv zeta.
  assert (x ≠ fresh (dom σ)) as Hne.
  { intros ->. by rewrite fresh_not_in_dom in He. }
  unfold tag_of, attrib_of, text_of, tail_of, children_of.
  rewrite !lookup_alter_ne, !lookup_insert_ne, He by done. simpl.
  rewrite !alter_insert_eq. unfold with_text, with_tail. simpl.
  destruct (copy_children _ _ _ _) as [[r|err] σ4]; reflexivity.
Qed.

Lemma deepcopy_copies D fuel : copies D fuel (deepcopy fuel).
Proof.
  induction fuel as [|fuel IH]; intros x t Q memo σ Hx Hdepth HD HQ Hm.
  { destruct t. simpl in Hdepth. lia. }
  destruct (memo !! x) as [y|] eqn:Hmx.
  { exists y, memo, σ. simpl. rewrite Hmx.
    split; [done|]. split; [by eapply Hm|]. split; [apply unchanged_on_refl|done]. }
  destruct t as [tg a tx tl ts].
  pose proof Hx as Hx'.
  apply represents_in_unfold in Hx' as (HxD & cs & He & Hcs).
  rewrite (deepcopy_step _ _ _ _ _ Hmx He). simpl.
  set (l := fresh (dom σ)).
  set (σ3 := <[l := mkElement tg a tx tl []]> σ).
  assert (l ∉ dom σ) as Hl by apply is_fresh.
  assert (l ∉ D) as HlD by (intros Hin; by apply Hl, HD).
  assert (unchanged_on (dom σ) σ σ3) as Hu3 by apply unchanged_on_alloc.
  assert (dom σ ⊆ dom σ3) as Hdom3 by by apply unchanged_on_dom.
  assert (l ∈ dom σ3) as Hl3.
  { apply elem_of_dom. unfold σ3. rewrite lookup_insert_eq. by eexists. }
  destruct (copy_children_copies D fuel (deepcopy fuel) cs ts IH
              (λ k, Q k ∧ k ≠ l) memo σ3)
    as (ys & memo2 & σ4 & Hrun & Hys & Hu4 & Hm2).
  - eapply Forall2_impl; [exact Hcs|]. intros c t Hc. simpl in Hc.
    apply (represents_in_frame _ σ); [|done].
    intros k Hk _. apply Hu3. by apply HD.
  - by eapply depth_children.
  - by etrans.
  - intros k Hk. split.
    + apply HQ. intros Hk'. by apply Hk, Hdom3.
    + by intros ->.
  - intros x' y' t' Hxy Hx't'.
    apply (represents_in_frame _ σ).
    { intros k _ Hk. by apply Hu3. }
    eapply represents_in_weaken;
      [|apply represents_in_dom, (Hm x' y' t' Hxy)].
    + intros k [[HkD HkQ] Hk]. repeat split; try done. by intros ->.
    + apply (represents_in_frame _ σ3); [|done].
      intros k Hk _. symmetry. apply Hu3. by apply HD.
  - rewrite Hrun. simpl.
    set (σ5 := alter (with_children ys) l σ4).
    assert (σ4 !! l = Some (mkElement tg a tx tl [])) as Hl4.
    { rewrite Hu4; [by apply lookup_insert_eq|done]. }
    assert (unchanged_on (dom σ) σ σ5) as Hu5.
    { eapply unchanged_on_trans; [exact Hu3|].
      eapply unchanged_on_trans.
      - by eapply unchanged_on_mono.
      - by apply unchanged_on_alter. }
    assert (∀ (P : loc → Prop) z s,
              represents_in (λ k, P k ∧ Q k ∧ k ≠ l) σ4 z s →
              represents_in (λ k, P k ∧ Q k) σ5 z s) as Hto5.
    { intros P z s Hz.
      apply (represents_in_weaken (λ k, P k ∧ Q k ∧ k ≠ l));
        [by intros k (? & ? & ?)|].
      apply (represents_in_frame _ σ4); [|done].
      intros k (_ & _ & Hk) _. unfold σ5. by rewrite lookup_alter_ne. }
    assert (represents_in (λ k, (k ∉ D) ∧ Q k) σ5 l
              (XmlNode tg a tx tl ts)) as Hlt.
    { apply represents_in_unfold. split; [split; [done|by apply HQ]|].
      exists ys. split.
      - unfold σ5. by rewrite lookup_alter_eq, Hl4.
      - eapply Forall2_impl; [exact Hys|]. intros z s Hz. simpl in Hz.
        by apply Hto5. }
    exists l, (<[x := l]> memo2), σ5.
    split; [done|]. split; [done|]. split; [done|].
    intros x' y' t' Hxy Hx't'.
    assert (represents_in (λ k, k ∈ D) σ x' t') as Hσ.
    { apply (represents_in_frame _ σ5); [|done].
      intros k Hk _. symmetry. apply Hu5. by apply HD. }
    destruct (decide (x = x')) as [<-|Hne].
    + rewrite lookup_insert_eq in Hxy. injection Hxy as <-.
      by rewrite <- (represents_in_functional _ _ _ _ _ _ Hx Hσ).
    + rewrite lookup_insert_ne in Hxy by done.
      apply Hto5. apply (Hm2 x' y' t' Hxy).
      apply (represents_in_frame _ σ); [|done].
      intros k Hk _. rewrite Hu4; [by apply Hu3, HD|]. by apply Hdom3, HD.
Qed.

(** ** [indent] returns on a tree *)

Lemma shaped_unfold (σ : heap) l tg a tx tl ts :
  shaped σ l (XmlNode tg a tx tl ts) ↔ Forall2 (shaped σ) (children_of σ l) ts.
Proof.
  simpl. generalize (children_of σ l) as cs. split.
  - revert cs. induction ts as [|t ts IH]; intros [|c cs] Hall; try done.
    destruct Hall as [Hc Hall]. constructor; [done|]. by apply IH.
  - induction 1 as [|c t cs ts Hc Hall IH]; [done|]. by split.
Qed.

Lemma represents_in_shaped (P : loc → Prop) (σ : heap) l t :
  represents_in P σ l t → shaped σ l t.
Proof.
  revert l. induction t as [tg a tx tl ts IH] using XmlTree_nested_ind.
  intros l. rewrite represents_in_unfold, shaped_unfold.
  intros (_ & cs & He & Hall). unfold children_of. rewrite He. simpl.
  clear He. revert IH. induction Hall as [|c t cs ts Hc Hall IHall]; intros IH.
  - constructor.
  - inversion IH; subst. constructor; [by auto|by apply IHall].
Qed.

Lemma shaped_children (σ σ' : heap) l t :
  (∀ k, children_of σ' k = children_of σ k) → shaped σ l t → shaped σ' l t.
Proof.
  intros Hc. revert l. induction t as [tg a tx tl ts IH] using XmlTree_nested_ind.
  intros l. rewrite !shaped_unfold, Hc. generalize (children_of σ l) as cs.
  intros cs Hall. revert IH.
  induction Hall as [|c t cs ts Hct Hall IHall]; intros IH.
  - constructor.
  - inversion IH; subst. constructor; [by auto|by apply IHall].
Qed.

Section IndentReturns.
Context `{Runtime} `{XmlText}.

Lemma new_closed_empty (σ : heap) : new_closed ∅ σ.
Proof.
  intros k _. apply Forall_forall. intros c _. apply not_elem_of_empty.
Qed.

(** [_indent_children] changes the children of no element. *)
Lemma indent_children_children fuel elem level (σ : heap) r σ' :
  _indent_children fuel elem level σ = (r, σ') →
  ∀ k, children_of σ' k = children_of σ k.
Proof.
  intros Hrun.
  by destruct (indent_children_touches ∅ fuel elem level σ r σ'
                 (new_closed_empty σ) (not_elem_of_empty elem) Hrun).
Qed.

(** A loop returns when its body returns on each element and keeps what
    the remaining elements need. *)
Lemma for_each_returns (R : heap → loc → XmlTree → Prop) (P : XmlTree → Prop)
    (body : loc → M unit) cs ts :
  (∀ c t (σ : heap), R σ c t → P t →
     ∃ σ', body c σ = (Ok tt, σ') ∧ ∀ c' t', R σ c' t' → R σ' c' t') →
  Forall P ts →
  ∀ σ : heap, Forall2 (R σ) cs ts → ∃ σ', for_each body cs σ = (Ok tt, σ').
Proof.
  intros Hbody HP. revert ts HP.
  induction cs as [|c cs IH]; intros ts HP σ Hall;
    inversion Hall as [|? t ? ts' Hct Hcs]; subst; simpl.
  - by eexists.
  - inversion HP as [|? ? HPt HPts]; subst.
    destruct (Hbody c t σ Hct HPt) as (σ1 & Hrun & Hkeep).
    unfold mbind, M_bind, bind. rewrite Hrun.
    apply (IH ts' HPts). eapply Forall2_impl; [exact Hcs|]. apply Hkeep.
Qed.

Lemma indent_children_returns fuel elem level (σ : heap) t :
  shaped σ elem t → (depth t ≤ fuel)%nat →
  ∃ σ', _indent_children fuel elem level σ = (Ok tt, σ').
Proof.
  revert elem level σ t.
  induction fuel as [|fuel IH]; intros elem level σ [tg a tx tl ts] Hs Hd.
  { simpl in Hd. lia. }
  apply shaped_unfold in Hs. apply depth_children in Hd.
  simpl.
  unfold mbind at 1 2 3 4, M_bind at 1 2 3 4, bind at 1 2 3 4, gets at 1 2,
    ET.set_text.
  set (σ1 := (if blank (text_of σ elem)
              then alter (with_text (Some (indentation (level + 1)))) elem σ
              else σ)).
  assert ((if blank (text_of σ elem)
           then modify (alter (with_text (Some (indentation (level + 1)))) elem)
           else mret ()) σ = (Ok tt, σ1)) as ->.
  { unfold σ1. by destruct (blank _). }
  assert (∀ k, children_of σ1 k = children_of σ k) as Hc1.
  { intros k. unfold σ1. destruct (blank _); [|done].
    by apply children_of_alter_same. }
  rewrite Hc1.
  assert (Forall2 (shaped σ1) (children_of σ elem) ts) as Hs1.
  { eapply Forall2_impl; [exact Hs|]. intros c t. by apply shaped_children. }
  match goal with
  | |- context [for_each ?b (children_of σ elem) σ1] =>
      destruct (for_each_returns shaped (λ t, (depth t ≤ fuel)%nat) b
                  (children_of σ elem) ts) with (σ := σ1) as [σ2 ->];
        [|done|done|]
  end.
  - intros c t σa Hct Hdt.
    unfold mbind, M_bind, bind, gets, ET.set_tail.
    assert (∃ σb, (if (0 <? length (children_of σa c))%nat
                   then _indent_children fuel c (level + 1)
                   else mret ()) σa = (Ok tt, σb) ∧
                  ∀ k, children_of σb k = children_of σa k)
      as (σb & -> & Hcb).
    { destruct (0 <? _)%nat.
      - destruct (IH c (level + 1)%nat σa t Hct Hdt) as [σb Hrun].
        exists σb. split; [done|]. by eapply indent_children_children.
      - by exists σa. }
    unfold modify, mret, M_ret, ret.
    destruct (blank (tail_of σb c)).
    + exists (alter (with_tail (Some (indentation (level + 1)))) c σb).
      split; [done|]. intros c' t'.
      apply shaped_children. intros k.
      rewrite children_of_alter_same by done. apply Hcb.
    + exists σb. split; [done|]. intros c' t'.
      by apply shaped_children.
  - unfold mbind, M_bind, bind, gets, ET.set_tail, modify, mret, M_ret, ret.
    destruct (last (children_of σ elem)) as [child|].
    + destruct (blank (tail_of σ2 child)); by eexists.
    + by eexists.
Qed.

End IndentReturns.

Section RenderingReturns.
Context `{Runtime} `{XmlText}.

(** On a document that is a tree no deeper than the recursion limit the
    rendering returns the text of a copy that is arranged as the tree is. *)
Lemma dump_returns (dynamic_model : DynamicModel) (σ : heap) t :
  represents σ (__document__ dynamic_model) t →
  (depth t ≤ recursion_limit)%nat →
  ∃ copy σ',
    (copy ∉ dom σ) ∧
    dump_dynamic_model dynamic_model σ = (tostring copy σ', σ') ∧
    shaped σ' copy t.
Proof.
  intros Ht Hd.
  destruct (deepcopy_copies (dom σ) recursion_limit
              (__document__ dynamic_model) t (λ _, True) ∅ σ)
    as (y & memo & σ1 & Hcopy & Hy & _ & _); [|done|done|done| |].
  { eapply represents_in_weaken; [|by apply represents_in_dom].
    by intros k [_ Hk]. }
  { intros x y' t' Hxy. by rewrite lookup_empty in Hxy. }
  unfold dump_dynamic_model, indent, read, gets, mbind, M_bind, bind.
  rewrite Hcopy. simpl.
  pose proof (represents_in_shaped _ _ _ _ Hy) as Hs.
  assert (y ∉ dom σ) as Hnew by by apply represents_in_root in Hy as [? _].
  destruct (length (children_of σ1 y) =? 0)%nat.
  - exists y, σ1. by repeat split.
  - destruct (indent_children_returns recursion_limit y 0 σ1 t Hs Hd)
      as [σ2 Hrun].
    rewrite Hrun. exists y, σ2. repeat split; [done|].
    eapply shaped_children; [|exact Hs].
    by eapply indent_children_children.
Qed.

End RenderingReturns.

(** C9. [dump_dynamic_model] leaves the heap as it was: every object that
    was there, the wrapped element and its descendants among them, is
    unchanged, whether the rendering returns or raises.  The text returned
    is the text of a new element, the deep copy; on a document that is a
    tree no deeper than the recursion limit the rendering does return, and
    the copy is arranged as the document is. *)
Theorem C9_dump_dynamic_model `{Runtime} `{XmlText}
    (dynamic_model : DynamicModel) (σ : heap) :
  let out := dump_dynamic_model dynamic_model σ in
  σ ⊆ out.2 ∧
  (∀ e, σ !! __document__ dynamic_model = Some e →
        out.2 !! __document__ dynamic_model = Some e) ∧
  (∀ t, represents σ (__document__ dynamic_model) t →
        represents out.2 (__document__ dynamic_model) t) ∧
  (∀ s, out.1 = Ok s →
        ∃ copy, (copy ∉ dom σ) ∧ tostring copy out.2 = Ok s) ∧
  (∀ t, represents σ (__document__ dynamic_model) t →
        (depth t ≤ recursion_limit)%nat →
        ∃ copy, (copy ∉ dom σ) ∧ out.1 = tostring copy out.2 ∧
                shaped out.2 copy t).
Proof.
  destruct (dump_run dynamic_model σ) as [Hu Hs].
  assert (σ ⊆ (dump_dynamic_model dynamic_model σ).2) as Hsub.
  { apply map_subseteq_spec. intros k e Hk. rewrite Hu; [done|].
    apply elem_of_dom. by eexists. }
  split; [done|]. split; [|split; [|split; [done|]]].
  - intros e. by apply (proj1 (map_subseteq_spec _ _) Hsub).
  - intros t. apply represents_in_frame. intros k _ Hk. by apply Hu.
  - intros t Ht Hd.
    destruct (dump_returns dynamic_model σ t Ht Hd)
      as (copy & σ' & Hnew & Hrun & Hshape).
    exists copy. rewrite Hrun. by repeat split.
Qed.

(** ** The library at work *)

(** A rendering: the text is indented, the document is not. *)
Example dump_ranks :
  let out := dump_dynamic_model (H := cpython) (H0 := plain_xml)
               (mkDynamicModel 1) ranks_heap in
  let nl := String "010" "" in
  out.1 = Ok ("<Ranks>" ++ nl ++ "  <Rank>2</Rank>" ++ nl ++
              "  <Rank>8</Rank>" ++ nl ++ "</Ranks>") ∧
  read_tree 2 out.2 1%positive =
    Some (XmlNode "Ranks" [] None None
            [XmlNode "Rank" [] (Some "2") None [];
             XmlNode "Rank" [] (Some "8") None []]).
Proof. vm_compute. split; reflexivity. Qed.

(** A model that contains itself cannot be rendered, and is left as it
    is. *)
Example dump_cyclic :
  let run := (__setattr__ (H := cpython) (mkDynamicModel 3) "Lifecycle"
                (VModel (mkDynamicModel 3))) device_heap in
  let out := dump_dynamic_model (H := cpython) (H0 := plain_xml)
               (mkDynamicModel 3) run.2 in
  children_of run.2 3%positive = [3%positive] ∧
  out.1 = Raise RecursionError ∧
  out.2 !! 3%positive = run.2 !! 3%positive.
Proof. vm_compute. repeat split; reflexivity. Qed.

(** A filtered list: the children of the response document are wrapped one
    by one, as the generator is advanced. *)
Example filtered_get_list_profiles :
  let response :=
    response_200 [("Content-Type", "application/xml;charset=UTF-8")]
      profiles_body in
  let run := filtered_get_list (H := plain_xml) (client_of response)
               "profiles" complex_filter ∅ in
  let first :=
    match run.1 with
    | Ok g =>
        (r ← generator_next g;
         match r with
         | Some (model, _) => __getattr__ (H := cpython) model "ID"
         | None => mret VNone
         end) run.2
    | Raise e => (Raise e, run.2)
    end in
  first.1 = Ok (VStr "1234567").
Proof. vm_compute. reflexivity. Qed.

(** [testCustomWithScalar] and [testCustomWithScalarAndComplex] of the test
    suite. *)
Example dynamic_model_testCustomWithScalar :
  let run := dynamic_model (H := cpython) "ManageableDevice" (VStr "1.0.0")
               [("SNMPProfileID", VInt 4567);
                ("SNMPProfileVersion", VStr "SNMPV3")] ∅ in
  (m ← match run.1 with Ok m => Some m | Raise _ => None end;
   read_tree 2 run.2 (__document__ m)) =
  Some (XmlNode "ManageableDevice" [("version", "1.0.0")] None None
          [XmlNode "SNMPProfileID" [] (Some "4567") None [];
           XmlNode "SNMPProfileVersion" [] (Some "SNMPV3") None []]).
Proof. vm_compute. reflexivity. Qed.

Example dynamic_model_testCustomWithScalarAndComplex :
  let run :=
    (child ← dynamic_model (H := cpython) "DataCollectionMgrId"
               (VStr "1.0.0") [("PrevMDRItemID", VStr "1234")];
     dynamic_model (H := cpython) "ManageableDevice" (VStr "1.0.0")
       [("Model", VStr "Cisco ISR4479");
        ("DataCollectionMgrId", VModel child)]) ∅ in
  (m ← match run.1 with Ok m => Some m | Raise _ => None end;
   read_tree 3 run.2 (__document__ m)) =
  Some (XmlNode "ManageableDevice" [("version", "1.0.0")] None None
          [XmlNode "Model" [] (Some "Cisco ISR4479") None [];
           XmlNode "DataCollectionMgrId" [("version", "1.0.0")] None None
             [XmlNode "PrevMDRItemID" [] (Some "1234") None []]]).
Proof. vm_compute. reflexivity. Qed.

(** * Further properties *)

(** ** Reading never writes *)

Section ReadOnly.
Context `{Runtime}.

Lemma stdpp_filter_eq (p : loc → bool) (l : list loc) :
  filter (λ c, p c) l = List.filter p l.
Proof.
  induction l as [|c l IH]; [done|]. simpl. rewrite filter_cons, IH.
  destruct (decide (p c)) as [Hp|Hp]; destruct (p c); done.
Qed.

Lemma bind_apply {A B} (m : M A) (k : A → M B) (σ : heap) :
  (m ≫= k) σ = match m σ with
               | (Ok a, σ') => k a σ'
               | (Raise e, σ') => (Raise e, σ')
               end.
Proof. reflexivity. Qed.

Lemma map_each_cons {A B} (f : A → M B) x r :
  map_each f (x :: r) = (y ← f x; ys ← map_each f r; mret (y :: ys)).
Proof. reflexivity. Qed.

Lemma for_each_cons {A} (f : A → M unit) x r :
  for_each f (x :: r) = (f x;; for_each f r).
Proof. reflexivity. Qed.

Lemma isa_item_run e (σ : heap) :
  (n ← ET.attrib_item e "name";
   r ← ET.attrib_item e "rootURL";
   mret (mkIsA n r)) σ = (isa_of σ e, σ).
Proof.
  unfold mbind, M_bind, bind, ET.attrib_item, isa_of.
  destruct (Dict.get "name" _) as [n|]; [|done].
  by destruct (Dict.get "rootURL" _) as [r|].
Qed.

(** The loop of [__getattr__] over the [IsA] elements: it returns the
    pairs, or raises at the first element that lacks an attribute. *)
Lemma isa_loop_run es (σ : heap) :
  map_each (λ e, n ← ET.attrib_item e "name";
                 r ← ET.attrib_item e "rootURL";
                 mret (mkIsA n r)) es σ = (isa_all σ es, σ).
Proof.
  induction es as [|e es IH]; [done|].
  rewrite map_each_cons, bind_apply, isa_item_run. simpl.
  destruct (isa_of σ e) as [i|err]; [|done].
  rewrite bind_apply, IH. by destruct (isa_all σ es).
Qed.

Lemma getattr_readonly self name (σ : heap) :
  (__getattr__ self name σ).2 = σ.
Proof.
  unfold __getattr__.
  destruct (String.eqb name "version"); [done|].
  destruct (String.eqb name "IsAlso").
  - unfold mbind, M_bind, fmap, M_fmap, bind, ET.findall2, gets.
    rewrite isa_loop_run. by destruct (isa_all _ _).
  - unfold mbind, M_bind, bind, ET.find, gets.
    destruct (List.find _ _) as [el|]; [|done].
    by destruct (Dict.contains _ _).
Qed.

Lemma getattr_IsAlso_run self (σ : heap) :
  __getattr__ self "IsAlso" σ =
    (match isa_all σ (isa_elements σ (__document__ self)) with
     | Ok l => Ok (VIsATuple l)
     | Raise err => Raise err
     end, σ).
Proof.
  unfold __getattr__. simpl.
  unfold mbind, M_bind, fmap, M_fmap, bind, ET.findall2, gets.
  rewrite isa_loop_run. by destruct (isa_all _ _).
Qed.

Lemma isa_all_ok (σ : heap) es l :
  Forall2 (λ e i, isa_of σ e = Ok i) es l → isa_all σ es = Ok l.
Proof.
  induction 1 as [|e i es l He _ IH]; [done|]. simpl. by rewrite He, IH.
Qed.

Lemma isa_all_raises (σ : heap) es e :
  e ∈ es →
  Dict.get "name" (attrib_of σ e) = None ∨
  Dict.get "rootURL" (attrib_of σ e) = None →
  isa_all σ es = Raise (KeyError "name") ∨
  isa_all σ es = Raise (KeyError "rootURL").
Proof.
  intros Hin Hmiss. induction es as [|e' es IH]; [by inversion Hin|].
  simpl. apply elem_of_cons in Hin as [<-|Hin].
  - unfold isa_of. destruct Hmiss as [-> | Hr]; [by left|].
    destruct (Dict.get "name" _); [|by left]. rewrite Hr. by right.
  - destruct (isa_of σ e') as [i|err] eqn:He'.
    + destruct (IH Hin) as [-> | ->]; [by left|by right].
    + unfold isa_of in He'.
      destruct (Dict.get "name" (attrib_of σ e')); [|injection He' as <-; by left].
      destruct (Dict.get "rootURL" (attrib_of σ e')); [done|].
      injection He' as <-. by right.
Qed.

End ReadOnly.

(** X1. Reading [IsAlso] never fails on a document without an [IsAlso]
    child: it returns the empty tuple.  When every [IsA] element under the
    [IsAlso] children has a [name] and a [rootURL], it returns their pairs
    in document order; when one lacks either attribute, it raises the
    [KeyError] of that attribute.  The heap is not modified. *)
Theorem X1_getattr_IsAlso `{Runtime} (σ : heap) (self : DynamicModel) :
  let es := isa_elements σ (__document__ self) in
  (count_tagged σ "IsAlso" (__document__ self) = 0%nat →
   __getattr__ self "IsAlso" σ = (Ok (VIsATuple []), σ)) ∧
  (∀ l, Forall2 (λ e i, isa_of σ e = Ok i) es l →
        __getattr__ self "IsAlso" σ = (Ok (VIsATuple l), σ)) ∧
  (∀ e, e ∈ es →
        Dict.get "name" (attrib_of σ e) = None ∨
        Dict.get "rootURL" (attrib_of σ e) = None →
        __getattr__ self "IsAlso" σ = (Raise (KeyError "name"), σ) ∨
        __getattr__ self "IsAlso" σ = (Raise (KeyError "rootURL"), σ)).
Proof.
  simpl. split; [|split].
  - intros Hc. rewrite getattr_IsAlso_run. unfold isa_elements.
    apply length_zero_iff_nil in Hc.
    by rewrite stdpp_filter_eq, Hc.
  - intros l Hl. by rewrite getattr_IsAlso_run, (isa_all_ok _ _ _ Hl).
  - intros e He Hmiss. rewrite getattr_IsAlso_run.
    destruct (isa_all_raises σ _ e He Hmiss) as [-> | ->]; [by left|by right].
Qed.

(** The document of the test suite, cut down: one [IsA] element. *)
Example getattr_IsAlso_profile :
  __getattr__ (H := cpython) (mkDynamicModel 1) "IsAlso" profile_heap =
  (Ok (VIsATuple [mkIsA "SNMPv3Profile" "profiles/snmpv3"]), profile_heap).
Proof. vm_compute. reflexivity. Qed.

(** X2. [__getattr__] never modifies the heap, whatever the name and
    whether it returns or raises; so two consecutive reads of an attribute
    give the same outcome, and the two models that two reads of a complex
    attribute return compare equal and hash alike. *)
Theorem X2_getattr_reads `{Runtime} (σ : heap) (self : DynamicModel)
    (name : string) :
  (__getattr__ self name σ).2 = σ ∧
  (a ← __getattr__ self name; b ← __getattr__ self name; mret (a, b)) σ =
    (match (__getattr__ self name σ).1 with
     | Ok a => Ok (a, a)
     | Raise err => Raise err
     end, σ) ∧
  (∀ a b,
     (a ← __getattr__ self name; b ← __getattr__ self name; mret (a, b)) σ =
       (Ok (VModel a, VModel b), σ) →
     __eq__ a (VModel b) = true ∧ __hash__ a = __hash__ b).
Proof.
  pose proof (getattr_readonly self name σ) as Hσ.
  assert ((a ← __getattr__ self name; b ← __getattr__ self name;
           mret (a, b)) σ =
          (match (__getattr__ self name σ).1 with
           | Ok a => Ok (a, a)
           | Raise err => Raise err
           end, σ)) as Htwice.
  { rewrite bind_apply.
    destruct (__getattr__ self name σ) as [[a|err] σ'] eqn:Hget;
      simpl in Hσ; subst σ'; simpl.
    - by rewrite bind_apply, Hget.
    - done. }
  split; [exact Hσ|]. split; [exact Htwice|].
  intros a b. rewrite Htwice.
  destruct (__getattr__ self name σ).1 as [v|err]; [|done].
  intros Heq. injection Heq as -> Hab. injection Hab as ->.
  split; [by apply bool_decide_eq_true|reflexivity].
Qed.

(** X3. Setting [version] to a string and reading it back returns that
    string: it is stored as the [version] attribute of the element, whose
    children, text and tag are left as they were, as is every other
    element.  A value that is not a string raises [TypeError] and changes
    nothing. *)
Theorem X3_version_set_get `{Runtime} (σ : heap) (self : DynamicModel)
    (v : string) (e : Element) :
  σ !! __document__ self = Some e →
  (∃ σ',
     (__setattr__ self "version" (VStr v);; __getattr__ self "version") σ =
       (Ok (VStr v), σ') ∧
     σ' !! __document__ self =
       Some (with_attrib (Dict.set "version" v (attrib e)) e) ∧
     ∀ l, l ≠ __document__ self → σ' !! l = σ !! l) ∧
  (∀ value, isinstance value TStr = false →
     __setattr__ self "version" value σ =
       (Raise (TypeError "Version must be a string."), σ)).
Proof.
  intros He. split.
  - eexists. split; [|split].
    + rewrite bind_apply. unfold __setattr__, __getattr__. simpl.
      unfold ET.set, modify, fmap, M_fmap, bind, ET.get, gets, ret, attrib_of.
      rewrite lookup_alter_eq, He. simpl. by rewrite Dict_get_set_eq.
    + by rewrite lookup_alter_eq, He.
    + intros l Hl. by rewrite lookup_alter_ne.
  - by intros [].
Qed.

Lemma X3_version_set_get_witness :
  ∃ σ',
    (__setattr__ (H := cpython) (mkDynamicModel 1) "version" (VStr "2.0.0");;
     __getattr__ (H := cpython) (mkDynamicModel 1) "version") profile_heap =
      (Ok (VStr "2.0.0"), σ') ∧
    children_of σ' 1%positive = children_of profile_heap 1%positive.
Proof.
  destruct (X3_version_set_get (H := cpython) profile_heap (mkDynamicModel 1)
              "2.0.0"
              (mkElement "Profile" [("version", "1.0.0")] None None
                 [2%positive; 3%positive; 5%positive]) eq_refl)
    as [(σ' & Hrun & Hdoc & _) _].
  exists σ'. split; [exact Hrun|].
  unfold children_of. simpl in Hdoc. rewrite Hdoc. reflexivity.
Defined.

(** ** Deleting and the special names *)

Section Special.
Context `{Runtime}.

Lemma attrib_of_alter f d (σ : heap) l :
  (∀ e, attrib (f e) = attrib e) → attrib_of (alter f d σ) l = attrib_of σ l.
Proof.
  intros Hf. unfold attrib_of. destruct (decide (d = l)) as [->|Hne].
  - rewrite lookup_alter_eq. destruct (σ !! l); simpl; [by rewrite Hf|done].
  - by rewrite lookup_alter_ne.
Qed.


Lemma getattr_version_run self (σ : heap) :
  __getattr__ self "version" σ =
    (Ok (opt_str (Dict.get "version" (attrib_of σ (__document__ self)))), σ).
Proof. reflexivity. Qed.

Lemma children_of_drop_old doc name (σ : heap) :
  children_of (drop_old doc name σ) doc =
    drop_first (has_tag σ name) (children_of σ doc).
Proof.
  unfold drop_old, children_of at 1. rewrite lookup_alter_eq.
  unfold children_of. by destruct (σ !! doc).
Qed.

Lemma count_drop_old doc name (σ : heap) :
  count_tagged (drop_old doc name σ) name doc = pred (count_tagged σ name doc).
Proof.
  unfold count_tagged. rewrite children_of_drop_old.
  rewrite (filter_ext_in (has_tag (drop_old doc name σ) name)
             (has_tag σ name)).
  - apply filter_drop_first.
  - intros c _. apply has_tag_drop_old.
Qed.

End Special.

(** X4. Deleting never touches the [version] attribute of the element:
    whatever the name, and whether the deletion succeeds or raises,
    [version] reads afterwards what it read before; so [del model.version]
    removes a child element tagged [version] when there is one and raises
    [AttributeError] otherwise.  [IsAlso], which cannot be set, can be
    deleted: with one [IsAlso] child, the deletion succeeds and [IsAlso]
    reads as the empty tuple afterwards. *)
Theorem X4_delattr_special `{Runtime} (σ : heap) (self : DynamicModel) :
  (∀ name,
     let out := __delattr__ self name σ in
     __getattr__ self "version" out.2 =
       ((__getattr__ self "version" σ).1, out.2)) ∧
  (count_tagged σ "version" (__document__ self) = 0%nat →
   __delattr__ self "version" σ =
     (Raise (_attribute_error ["Attribute not found."] (Some "version")
                              (Some self)), σ)) ∧
  (count_tagged σ "IsAlso" (__document__ self) = 1%nat →
   ∃ σ', __delattr__ self "IsAlso" σ = (Ok tt, σ') ∧
         __getattr__ self "IsAlso" σ' = (Ok (VIsATuple []), σ')).
Proof.
  split; [|split].
  - intros name. simpl. rewrite delattr_run.
    destruct (List.find _ _); [|done]. simpl.
    rewrite !getattr_version_run. simpl. unfold drop_old.
    by rewrite attrib_of_alter.
  - intros Hc. rewrite delattr_run.
    apply length_zero_iff_nil, find_none_filter in Hc. by rewrite Hc.
  - intros Hc. rewrite delattr_run.
    destruct (List.find _ _) as [x|] eqn:Hf.
    + eexists. split; [done|].
      rewrite getattr_IsAlso_run. unfold isa_elements.
      rewrite stdpp_filter_eq.
      pose proof (count_drop_old (__document__ self) "IsAlso" σ) as Hd.
      rewrite Hc in Hd. apply length_zero_iff_nil in Hd.
      by rewrite Hd.
    + apply find_none_filter in Hf. unfold count_tagged in Hc.
      by rewrite Hf in Hc.
Qed.

(** [del model.IsAlso] on the profile of the test suite. *)
Example delattr_IsAlso_profile :
  (__delattr__ (H := cpython) (mkDynamicModel 1) "IsAlso";;
   __getattr__ (H := cpython) (mkDynamicModel 1) "IsAlso") profile_heap =
  (Ok (VIsATuple []),
   <[1%positive := mkElement "Profile" [("version", "1.0.0")] None None
                     [2%positive; 5%positive]]> profile_heap).
Proof. vm_compute. reflexivity. Qed.

(** ** Setting a value that is neither a scalar nor a model *)




(** ** The attributes are independent of one another *)

Section Independence.
Context `{Runtime}.











End Independence.



(** ** A model set as an attribute is adopted, not copied *)



(** ** The factory *)

Section Factory.
Context `{Runtime}.





End Factory.



(** ** Filters that do not compile *)

Lemma scalar_to_str_raises value :
  isinstance_any value _scalar_types = false →
  _scalar_to_str value = Raise scalar_type_error.
Proof. by destruct value. Qed.

Lemma append_run p c (σ : heap) :
  ET.append p c σ =
    (Ok tt, alter (λ e, with_children (children e ++ [c]) e) p σ).
Proof. reflexivity. Qed.

(** The loop of [_Operator.__toxml__] stops at the first operand that does
    not compile. *)
Lemma operands_loop_raises p os :
  Forall toxml_raises os →
  forallb scalar_expr os = false →
  ∀ σ : heap, p ∈ dom σ →
    ∃ σ',
      for_each (λ o, c ← __toxml__ o; ET.append p c) os σ =
        (Raise scalar_type_error, σ') ∧
      (∀ k, k ∈ dom σ → k ≠ p → σ' !! k = σ !! k).
Proof.
  induction 1 as [|o os Ho _ IH]; [done|]. intros Hsc σ Hp.
  rewrite for_each_cons, !bind_apply. simpl in Hsc.
  destruct (scalar_expr o) eqn:Hsco; simpl in Hsc.
  - destruct (toxml_spec o Hsco σ) as (c & σ1 & Hrun & _ & Hframe).
    rewrite Hrun, append_run.
    set (σ2 := alter (λ e, with_children (children e ++ [c]) e) p σ1).
    assert (dom σ ⊆ dom σ2) as Hdom.
    { unfold σ2. rewrite dom_alter_L. by apply frame_dom. }
    destruct (IH Hsc σ2) as (σ' & Hloop & Hframe'); [by apply Hdom|].
    exists σ'. split; [exact Hloop|]. intros k Hk Hkp.
    rewrite Hframe' by auto. unfold σ2. rewrite lookup_alter_ne by done.
    by apply Hframe.
  - destruct (Ho Hsco σ) as (σ1 & Hrun & Hframe). rewrite Hrun.
    exists σ1. split; [done|]. intros k Hk _. by apply Hframe.
Qed.

Lemma operator_toxml_raises cls os :
  Forall toxml_raises os →
  forallb scalar_expr os = false →
  ∀ σ : heap, ∃ σ',
    _Operator__toxml__ __toxml__ cls os σ = (Raise scalar_type_error, σ') ∧
    (∀ k, k ∈ dom σ → σ' !! k = σ !! k).
Proof.
  intros Hos Hsc σ. unfold _Operator__toxml__, ET.Element, alloc.
  rewrite bind_apply. cbv zeta.
  set (p := fresh (dom σ)).
  set (σ0 := <[p := mkElement cls [] None None []]> σ).
  assert (p ∉ dom σ) as Hp by apply is_fresh.
  destruct (operands_loop_raises p os Hos Hsc σ0) as (σ' & Hloop & Hframe).
  { unfold σ0. rewrite dom_insert_L. set_solver. }
  rewrite bind_apply, Hloop. exists σ'. split; [done|].
  intros k Hk. assert (k ≠ p) by (by intros ->). rewrite Hframe.
  - unfold σ0. by rewrite lookup_insert_ne.
  - unfold σ0. rewrite dom_insert_L. set_solver.
  - done.
Qed.

Lemma toxml_raises_spec e : toxml_raises e.
Proof.
  induction e as [p op v ic|o IH|os IH|os IH] using Expression_nested_ind.
  - intros Hsc σ. simpl in Hsc.
    assert (fresh (dom σ) ∉ dom σ) as Hp by apply is_fresh.
    simpl.
    unfold mbind, M_bind, bind, mret, M_ret, ret, ET.Element, alloc, lift,
      ET.set_text, ET.set, modify.
    rewrite (scalar_to_str_raises _ Hsc).
    destruct ic; (eexists; split; [reflexivity|];
      intros k Hk; assert (k ≠ fresh (dom σ)) by (by intros ->);
      by rewrite ?lookup_alter_ne, lookup_insert_ne).
  - intros Hsc. simpl in *. apply operator_toxml_raises.
    + by constructor.
    + simpl. by rewrite Hsc.
  - intros Hsc. simpl in *. by apply operator_toxml_raises.
  - intros Hsc. simpl in *. by apply operator_toxml_raises.
Qed.

(** X9. An expression that holds, at any depth, a comparison with a value
    that is not a scalar does not compile: [__toxml__] raises
    [TypeError], [_filter_select] raises it too, and so does
    [filtered_get_list], whatever the client, the session and the service:
    the failure comes before any request is posted.  The objects that were
    on the heap are unchanged. *)
Theorem X9_toxml_type_error `{XmlText} (e : Expression) (σ : heap) :
  scalar_expr e = false →
  (∃ σ', __toxml__ e σ = (Raise scalar_type_error, σ') ∧
         (∀ k, k ∈ dom σ → σ' !! k = σ !! k)) ∧
  (∃ σ', _filter_select e σ = (Raise scalar_type_error, σ') ∧
         (∀ self service_uri,
            filtered_get_list self service_uri e σ =
              (Raise scalar_type_error, σ')) ∧
         (∀ k, k ∈ dom σ → σ' !! k = σ !! k)).
Proof.
  intros Hsc. split; [by apply toxml_raises_spec|].
  set (r := fresh (dom σ)).
  set (σ0 := <[r := mkElement "FilterSelect"
                      [("{http://www.w3.org/2001/XMLSchema-instance}noNamespaceSchemaLocation",
                        "filter.xsd")] None None []]> σ).
  set (f := fresh (dom σ0)).
  set (σ1 := alter (λ e, with_children (children e ++ [f]) e) r
               (<[f := mkElement "Filter" [] None None []]> σ0)).
  destruct (toxml_raises_spec e Hsc σ1) as (σ' & Hrun & Hframe).
  assert (_filter_select e σ = (Raise scalar_type_error, σ')) as Hfs.
  { unfold _filter_select, ET.SubElement, ET.Element, alloc.
    rewrite bind_apply. cbv zeta. fold r σ0.
    rewrite !bind_apply. cbv zeta. fold f. rewrite append_run. fold σ1.
    simpl. rewrite bind_apply, Hrun. reflexivity. }
  exists σ'. split; [exact Hfs|]. split.
  - intros self service_uri. unfold filtered_get_list.
    by rewrite bind_apply, Hfs.
  - intros k Hk.
    assert (r ∉ dom σ) as Hr by apply is_fresh.
    assert (f ∉ dom σ0) as Hf by apply is_fresh.
    assert (k ∈ dom σ0) as Hk0.
    { unfold σ0. rewrite dom_insert_L. set_solver. }
    assert (k ≠ r) by (by intros ->).
    assert (k ≠ f) by (by intros ->).
    rewrite Hframe.
    + unfold σ1, σ0. by rewrite lookup_alter_ne, !lookup_insert_ne.
    + unfold σ1. rewrite dom_alter_L, dom_insert_L.
      apply elem_of_union_r, Hk0.
Qed.

Lemma X9_toxml_type_error_witness :
  ∃ σ',
    filtered_get_list (H := plain_xml)
      (client_of (response_200 [("Content-Type", "application/xml")]
                    "<List/>"))
      "devices"
      (And [AttributeComparison "Name" CONTAINS (VStr "core") true;
            Not (AttributeComparison "Rank" EQUAL VNone false)]) ∅ =
      (Raise (TypeError "Value must be of type str, int, float or bool."),
       σ').
Proof.
  destruct (X9_toxml_type_error (H := plain_xml)
              (And [AttributeComparison "Name" CONTAINS (VStr "core") true;
                    Not (AttributeComparison "Rank" EQUAL VNone false)]) ∅
              eq_refl) as [_ (σ' & _ & Hlist & _)].
  exists σ'. apply Hlist.
Defined.

(** ** The body of a filtered list request *)

(** What [_filter_select] builds and returns. *)
Lemma filter_select_spec `{XmlText} (e : Expression) (σ : heap) :
  scalar_expr e = true →
  ∃ root σ',
    _filter_select e σ = (tostring root σ', σ') ∧
    represents_in (λ k, k ∉ dom σ) σ' root (filter_select_tree e) ∧
    (∀ k, k ∈ dom σ → σ' !! k = σ !! k).
Proof.
  intros Hsc.
  set (a := [("{http://www.w3.org/2001/XMLSchema-instance}noNamespaceSchemaLocation",
              "filter.xsd")]).
  set (r := fresh (dom σ)).
  set (σ0 := <[r := mkElement "FilterSelect" a None None []]> σ).
  set (f := fresh (dom σ0)).
  set (σ1 := alter (λ e, with_children (children e ++ [f]) e) r
               (<[f := mkElement "Filter" [] None None []]> σ0)).
  assert (r ∉ dom σ) as Hr by apply is_fresh.
  assert (f ∉ dom σ0) as Hf by apply is_fresh.
  assert (dom σ0 = {[r]} ∪ dom σ) as Hdom0.
  { unfold σ0. by rewrite dom_insert_L. }
  assert (dom σ1 = {[f]} ∪ ({[r]} ∪ dom σ)) as Hdom1.
  { unfold σ1. by rewrite dom_alter_L, dom_insert_L, Hdom0. }
  assert (r ≠ f) as Hrf.
  { intros Heq. apply Hf. rewrite Hdom0, <- Heq. apply elem_of_union_l.
    by apply elem_of_singleton. }
  assert (f ∉ dom σ) as Hfσ.
  { intros Hin. apply Hf. rewrite Hdom0. by apply elem_of_union_r. }
  destruct (toxml_spec e Hsc σ1) as (c & σ2 & Hrun & Hc & Hframe).
  set (σ3 := alter (λ e, with_children (children e ++ [c]) e) f σ2).
  pose proof (represents_in_root _ _ _ _ Hc) as Hcnew. simpl in Hcnew.
  assert (σ3 !! r = Some (mkElement "FilterSelect" a None None [f])) as H3r.
  { unfold σ3. rewrite lookup_alter_ne by done. rewrite Hframe.
    - unfold σ1. rewrite lookup_alter_eq, lookup_insert_ne by done.
      unfold σ0. by rewrite lookup_insert_eq.
    - rewrite Hdom1. apply elem_of_union_r, elem_of_union_l.
      by apply elem_of_singleton. }
  assert (σ3 !! f = Some (mkElement "Filter" [] None None [c])) as H3f.
  { unfold σ3. rewrite lookup_alter_eq, Hframe.
    - unfold σ1. by rewrite lookup_alter_ne, lookup_insert_eq.
    - rewrite Hdom1. apply elem_of_union_l. by apply elem_of_singleton. }
  assert (represents_in (λ k, k ∉ dom σ) σ3 c (compiled e)) as H3c.
  { apply (represents_in_weaken (λ k, k ∉ dom σ1)).
    - intros k Hk Hin. apply Hk. rewrite Hdom1.
      by do 2 apply elem_of_union_r.
    - apply (represents_in_frame _ σ2); [|exact Hc].
      intros k Hk _. unfold σ3. rewrite lookup_alter_ne; [done|].
      intros <-. apply Hk. rewrite Hdom1. apply elem_of_union_l.
      by apply elem_of_singleton. }
  exists r, σ3. split; [|split].
  - unfold _filter_select, ET.SubElement, ET.Element, alloc.
    rewrite bind_apply. cbv zeta. fold a r σ0.
    rewrite !bind_apply. cbv zeta. fold f. rewrite append_run. fold σ1.
    simpl. rewrite bind_apply, Hrun. reflexivity.
  - unfold filter_select_tree. fold a.
    apply represents_in_unfold. split; [done|]. exists [f].
    split; [done|]. constructor; [|constructor].
    apply represents_in_unfold. split; [done|]. exists [c].
    split; [done|]. by constructor.
  - intros k Hk.
    assert (k ≠ r) by (by intros ->).
    assert (k ≠ f) by (by intros ->).
    unfold σ3. rewrite lookup_alter_ne by done. rewrite Hframe.
    + unfold σ1, σ0. by rewrite lookup_alter_ne, !lookup_insert_ne.
    + rewrite Hdom1. by do 2 apply elem_of_union_r.
Qed.

(** X10. For an expression whose comparisons hold scalars,
    [_filter_select] returns what [tostring] gives for a new element that
    represents [<FilterSelect xsi:noNamespaceSchemaLocation="filter.xsd">
    <Filter>...</Filter></FilterSelect>], the one child of [Filter] being
    the compiled expression; the element and all below it are new objects,
    and the objects that were on the heap are unchanged. *)
Theorem X10_filter_select `{XmlText} (e : Expression) (σ : heap) :
  scalar_expr e = true →
  ∃ root σ',
    _filter_select e σ = (tostring root σ', σ') ∧
    represents_in (λ k, k ∉ dom σ) σ' root (filter_select_tree e) ∧
    (∀ k, k ∈ dom σ → σ' !! k = σ !! k).
Proof. apply filter_select_spec. Qed.

Lemma X10_filter_select_witness :
  ∃ root σ',
    _filter_select (H := plain_xml) complex_filter ∅ =
      (tostring (XmlText := plain_xml) root σ', σ') ∧
    represents σ' root (filter_select_tree complex_filter).
Proof.
  destruct (X10_filter_select (H := plain_xml) complex_filter ∅ eq_refl)
    as (root & σ' & Hrun & Htree & _).
  exists root, σ'. split; [exact Hrun|].
  eapply represents_in_weaken; [|exact Htree]. done.
Defined.

(** ** Requests that fail *)

Lemma raise_for_status_error (response : Response) :
  (400 ≤ status_code response < 600)%Z →
  raise_for_status response = Raise (HTTPError (status_code response)).
Proof.
  intros [Hlo Hhi]. unfold raise_for_status.
  apply Z.leb_le in Hlo. apply Z.ltb_lt in Hhi. by rewrite Hlo, Hhi.
Qed.

Lemma raise_for_status_ok (response : Response) :
  ¬ (400 ≤ status_code response < 600)%Z →
  raise_for_status response = Ok tt.
Proof.
  intros Hout. unfold raise_for_status.
  destruct (400 <=? status_code response)%Z eqn:Hlo; [|done].
  destruct (status_code response <? 600)%Z eqn:Hhi; [|done].
  apply Z.leb_le in Hlo. apply Z.ltb_lt in Hhi. lia.
Qed.

(** X11. Once the request body is built, [filtered_get_list] passes on the
    failure of the transport; and a response whose status is from 400 to
    599 raises [HTTPError] with that status, whatever its headers and its
    body: the status is checked before the content type is looked at, and
    the body is not parsed.  With any other status no [HTTPError] is
    raised.  In each case the heap is the one the request body left. *)
Theorem X11_request_errors `{XmlText} (self : DynamicClient)
    (service_uri : string) (filter : Expression) (σ σ1 : heap)
    (data : string) :
  _filter_select filter σ = (Ok data, σ1) →
  let sent := post (session self) (_create_url self service_uri "filtered")
                data [_Headers.accept; _Headers.content_type] in
  (∀ err, sent = Raise err →
          filtered_get_list self service_uri filter σ = (Raise err, σ1)) ∧
  (∀ response,
     sent = Ok response →
     (400 ≤ status_code response < 600)%Z →
     filtered_get_list self service_uri filter σ =
       (Raise (HTTPError (status_code response)), σ1)) ∧
  (∀ response,
     sent = Ok response →
     ¬ (400 ≤ status_code response < 600)%Z →
     ∀ status, (filtered_get_list self service_uri filter σ).1 ≠
               Raise (HTTPError status)).
Proof.
  intros Hdata sent. unfold sent. clear sent. split; [|split].
  - intros err Hsent.
    unfold filtered_get_list, mbind, M_bind, bind, lift.
    by rewrite Hdata, Hsent.
  - intros response Hsent Hstatus.
    unfold filtered_get_list, mbind, M_bind, bind, lift.
    by rewrite Hdata, Hsent, (raise_for_status_error _ Hstatus).
  - intros response Hsent Hstatus status.
    rewrite (filtered_get_list_run _ _ _ _ _ _ _ Hdata Hsent
               (raise_for_status_ok _ Hstatus)), parse_run.
    destruct (CaseInsensitiveDict.getitem _ _) as [ct|err] eqn:Hct.
    + destruct (is_xml _); [|done].
      by destruct (fromstring _ _) as [[root|] σ'].
    + simpl. unfold CaseInsensitiveDict.getitem in Hct.
      destruct (CaseInsensitiveDict.lookup _ _) as [[? ?]|];
        [done|by injection Hct as <-].
Qed.

Lemma X11_request_errors_witness :
  ∃ σ1,
    filtered_get_list (H := plain_xml)
      (client_of (mkResponse 404
                    (CaseInsensitiveDict.of_list
                       [("Content-Type", "text/html")])
                    "<html>Not Found</html>"))
      "devices" complex_filter ∅ = (Raise (HTTPError 404), σ1).
Proof.
  destruct (X11_request_errors (H := plain_xml)
              (client_of (mkResponse 404
                            (CaseInsensitiveDict.of_list
                               [("Content-Type", "text/html")])
                            "<html>Not Found</html>"))
              "devices" complex_filter ∅
              (_filter_select (H := plain_xml) complex_filter ∅).2
              (match (_filter_select (H := plain_xml) complex_filter ∅).1
               with
               | Ok data => data
               | Raise _ => ""
               end))
    as (_ & Herr & _).
  - vm_compute. reflexivity.
  - eexists. apply (Herr _ eq_refl). simpl. lia.
Defined.

(** ** The models of a list *)

Lemma generator_next_run (g : Generator) (σ : heap) :
  generator_next g σ =
    (Ok (match children_of σ (gen_element g) !! gen_index g with
         | Some child =>
             Some (mkDynamicModel child,
                   mkGenerator (gen_element g) (S (gen_index g)))
         | None => None
         end), σ).
Proof. reflexivity. Qed.

Lemma generator_take_run (σ : heap) d n :
  ∀ i k,
    k = (i + (n `min` (length (children_of σ d) - i)))%nat →
    generator_take n (mkGenerator d i) σ =
      (Ok (mkDynamicModel <$> take n (drop i (children_of σ d)),
           mkGenerator d k), σ).
Proof.
  induction n as [|n IH]; intros i k Hk.
  - simpl. unfold mret, M_ret, ret. repeat f_equal. lia.
  - simpl. rewrite bind_apply, generator_next_run. simpl.
    destruct (children_of σ d !! i) as [child|] eqn:Hi.
    + rewrite bind_apply, (IH (S i) _ eq_refl). simpl.
      unfold mret, M_ret, ret. rewrite (drop_S _ _ _ Hi). simpl.
      apply lookup_lt_Some in Hi. do 4 f_equal. lia.
    + apply lookup_ge_None in Hi. rewrite drop_ge by done.
      unfold mret, M_ret, ret. simpl. repeat f_equal. lia.
Qed.

(** X12. The generator that [filtered_get_list] returns wraps the children
    of the document one by one, in document order, when they are asked
    for: taking [n] models from a generator that has reached the index [i]
    gives the models of the children [i] to [i + n - 1], or of those there
    are, and leaves the generator at the index after them.  Every model is
    on the child itself, not on a copy, and the heap is not modified.  So
    a new generator gives all the children and then nothing more. *)
Theorem X12_generator (σ : heap) (g : Generator) (n : nat) :
  let cs := children_of σ (gen_element g) in
  generator_take n g σ =
    (Ok (mkDynamicModel <$> take n (drop (gen_index g) cs),
         mkGenerator (gen_element g)
           (gen_index g + (n `min` (length cs - gen_index g)))%nat), σ) ∧
  (gen_index g = 0%nat →
   generator_take (length cs) g σ =
     (Ok (mkDynamicModel <$> cs, mkGenerator (gen_element g) (length cs)),
      σ) ∧
   generator_next (mkGenerator (gen_element g) (length cs)) σ = (Ok None, σ)).
Proof.
  destruct g as [d i]. simpl. split; [by apply generator_take_run|].
  intros ->. split.
  - rewrite (generator_take_run _ _ _ _ (length (children_of σ d))) by lia.
    simpl. by rewrite firstn_all.
  - rewrite generator_next_run. simpl.
    by rewrite (proj2 (lookup_ge_None _ _) (Nat.le_refl _)).
Qed.

(** The models of the two profiles of a response. *)
Example generator_profiles :
  let run := (g ← filtered_get_list (H := plain_xml)
                    (client_of (response_200
                                  [("Content-Type", "application/xml")]
                                  profiles_body))
                    "profiles" complex_filter;
              ms ← generator_take 5 g;
              map_each (λ m, __getattr__ (H := cpython) m "ID") ms.1) ∅ in
  run.1 = Ok [VStr "1234567"; VStr "2345"].
Proof. vm_compute. reflexivity. Qed.

(** ** The string of a model *)

Section Str.
Context `{Runtime}.

Lemma ordinary_ID : ordinary "ID".
Proof. by split. Qed.

Lemma hasattr_ID_run self (σ : heap) :
  hasattr self "ID" σ =
    (Ok (bool_decide
           (is_Some (List.find (has_tag σ "ID")
                       (children_of σ (__document__ self))))), σ).
Proof.
  unfold hasattr. rewrite (getattr_run _ _ _ ordinary_ID).
  destruct (List.find _ _) as [el|].
  - by rewrite bool_decide_eq_true_2.
  - rewrite bool_decide_eq_false_2 by (by intros [? ?]).
    unfold _attribute_error. by destruct version_lt_3_10.
Qed.

Lemma str_run fuel self (σ : heap) :
  __str__ (S fuel) self σ =
    let type_name := default "" (tag_of σ (__document__ self)) in
    match List.find (has_tag σ "ID") (children_of σ (__document__ self)) with
    | None => (Ok ("<" ++ type_name ++ ">"), σ)
    | Some el =>
        if Dict.contains "version" (attrib_of σ el) then
          match __str__ fuel (mkDynamicModel el) σ with
          | (Ok s, σ') => (Ok ("<" ++ type_name ++ " with ID " ++ s ++ ">"), σ')
          | (Raise err, σ') => (Raise err, σ')
          end
        else
          (Ok ("<" ++ type_name ++ " with ID " ++
               match text_of σ el with Some s => s | None => "None" end ++
               ">"), σ)
    end.
Proof.
  simpl. rewrite bind_apply. unfold gets at 1. rewrite bind_apply.
  rewrite hasattr_ID_run.
  destruct (List.find _ _) as [el|] eqn:Hf.
  - rewrite bool_decide_eq_true_2 by done.
    rewrite bind_apply, (getattr_run _ _ _ ordinary_ID), Hf.
    destruct (Dict.contains _ _).
    + rewrite bind_apply. by destruct (__str__ fuel _ σ) as [[s|err] σ'].
    + rewrite bind_apply. by destruct (text_of σ el).
  - by rewrite bool_decide_eq_false_2 by (by intros [? ?]).
Qed.

End Str.

(** X13. On a model without a child tagged [ID], [__str__] does not
    raise the [AttributeError] of the missing attribute: it returns the tag
    in angle brackets.  With an [ID] child that holds a scalar it returns
    [<tag with ID text>], where a child without text gives [None]; with an
    [ID] child that is a resource, the identifier is the string of that
    resource.  The heap is not modified in the first two cases. *)
Theorem X13_str `{Runtime} (σ : heap) (self : DynamicModel) (fuel : nat)
    (type_name : string) :
  tag_of σ (__document__ self) = Some type_name →
  let found := List.find (has_tag σ "ID")
                 (children_of σ (__document__ self)) in
  (found = None →
   __str__ (S fuel) self σ = (Ok ("<" ++ type_name ++ ">"), σ)) ∧
  (∀ el, found = Some el →
         Dict.contains "version" (attrib_of σ el) = false →
         __str__ (S fuel) self σ =
           (Ok ("<" ++ type_name ++ " with ID " ++
                match text_of σ el with Some s => s | None => "None" end ++
                ">"), σ)) ∧
  (∀ el s σ', found = Some el →
              Dict.contains "version" (attrib_of σ el) = true →
              __str__ fuel (mkDynamicModel el) σ = (Ok s, σ') →
              __str__ (S fuel) self σ =
                (Ok ("<" ++ type_name ++ " with ID " ++ s ++ ">"), σ')).
Proof.
  intros Htag found. unfold found. clear found.
  rewrite str_run, Htag. simpl. split; [|split].
  - by intros ->.
  - by intros el -> ->.
  - by intros el s σ' -> -> ->.
Qed.

Lemma X13_str_witness :
  __str__ (H := cpython) 1 (mkDynamicModel 1) profile_heap =
    (Ok "<Profile with ID 7>", profile_heap) ∧
  __str__ (H := cpython) 1 (mkDynamicModel 1) device_heap =
    (Ok "<ManageableDevice>", device_heap).
Proof.
  split.
  - destruct (X13_str (H := cpython) profile_heap (mkDynamicModel 1) 0
                "Profile" eq_refl) as (_ & Hid & _).
    apply (Hid 2%positive); reflexivity.
  - destruct (X13_str (H := cpython) device_heap (mkDynamicModel 1) 0
                "ManageableDevice" eq_refl) as (Hnone & _).
    apply Hnone. reflexivity.
Defined.

(** ** The names a model lists *)



(** The names of the profile of the test suite. *)
Example dir_profile :
  (__dir__ ["__class__"; "__dict__"] (mkDynamicModel 1)
     profile_heap).1 =
  Ok ["__class__"; "__dict__"; "ID"; "IsAlso"; "Policy"; "version"].
Proof. vm_compute. reflexivity. Qed.

(** ** Updating a resource *)

Lemma string_app_assoc (a b c : string) : (a ++ b) ++ c = a ++ (b ++ c).
Proof.
  induction a as [|x a IH]; [done|].
  change (String x ((a ++ b) ++ c) = String x (a ++ b ++ c)).
  by rewrite IH.
Qed.

(** X15. [update] puts the document of the model, as [tostring] writes
    it, with the one header [content-type: application/xml], to the URL
    [protocol://host:8581/rest/service_uri//resource_id]: the operation
    part of the URL is empty, so two slashes separate the service from the
    identifier.  It passes on the failure of [tostring] and of the
    transport, raises [HTTPError] on a status from 400 to 599, and returns
    [None] otherwise; the model and the heap are not modified. *)
Theorem X15_update (put : string → string → Dict.t → result Response)
    (tostring_bytes : loc → heap → result string)
    (self : DynamicClient) (service_uri resource_id : string)
    (updated : DynamicModel) (σ : heap) :
  let url := protocol_name (protocol self) ++ "://" ++ host_name self ++
             ":8581/rest/" ++ service_uri ++ "//" ++ resource_id in
  let out := update put tostring_bytes self service_uri resource_id updated σ
  in
  out.2 = σ ∧
  (∀ err, tostring_bytes (__document__ updated) σ = Raise err →
          out.1 = Raise err) ∧
  (∀ data, tostring_bytes (__document__ updated) σ = Ok data →
     (∀ err, put url data [("content-type", "application/xml")] = Raise err →
             out.1 = Raise err) ∧
     (∀ response,
        put url data [("content-type", "application/xml")] = Ok response →
        ((400 ≤ status_code response < 600)%Z →
         out.1 = Raise (HTTPError (status_code response))) ∧
        (¬ (400 ≤ status_code response < 600)%Z → out.1 = Ok tt))).
Proof.
  intros url out.
  assert ((_create_url self service_uri "" ++ "/") ++ resource_id = url)
    as Hurl.
  { unfold _create_url, url. rewrite !string_app_assoc. reflexivity. }
  unfold out, update. rewrite Hurl. clear out.
  unfold mbind, M_bind, bind, read, lift.
  destruct (tostring_bytes _ σ) as [data|err0] eqn:Hdata.
  - split; [|split; [done|]].
    + destruct (put url data _) as [response|err]; [|done].
      by destruct (raise_for_status response).
    + intros ? [= <-]. split.
      * intros err Hput. unfold _Headers.content_type. by rewrite Hput.
      * intros response Hput. unfold _Headers.content_type. rewrite Hput.
        simpl. split; intros Hst.
        -- by rewrite (raise_for_status_error _ Hst).
        -- rewrite (raise_for_status_ok _ Hst). by destruct (Ok tt).
  - split; [done|]. split; [by intros ? [= <-]|done].
Qed.

(** The URL of an update of the profile 7. *)
Example update_url :
  update (λ url _ _, Raise (ValueError url)) (λ _ _, Ok "")
    (mkDynamicClient "da.example.com" https (mkSession (λ _ _ _, Raise ParseError)))
    "profiles/snmpv3" "7" (mkDynamicModel 1) profile_heap =
  (Raise (ValueError "https://da.example.com:8581/rest/profiles/snmpv3//7"),
   profile_heap).
Proof. reflexivity. Qed.

(** ** Documents with one child for a name *)

Section SingleValued.
Context `{Runtime}.







End SingleValued.



(** ** A filtered list, from the filter to the models *)

(** X17. For a filter whose comparisons hold scalars, [filtered_get_list]
    posts the text of a new element that represents the [FilterSelect]
    tree of the filter to [.../rest/service_uri/filtered]; when [tostring]
    fails, its error is passed on.  When the response has a status outside
    400 to 599 and an XML content type, and its body parses to a document,
    the result is a generator at the start of that document: taking as
    many models as the document has children gives a model on each child,
    in document order, and leaves the heap that the parser left. *)
Theorem X17_filtered_get_list `{XmlText} (self : DynamicClient)
    (service_uri : string) (filter : Expression) (σ : heap) :
  scalar_expr filter = true →
  ∃ request σ1,
    _filter_select filter σ = (tostring request σ1, σ1) ∧
    represents σ1 request (filter_select_tree filter) ∧
    (∀ err, tostring request σ1 = Raise err →
            filtered_get_list self service_uri filter σ = (Raise err, σ1)) ∧
    (∀ data response ct document σ2,
       tostring request σ1 = Ok data →
       post (session self) (_create_url self service_uri "filtered") data
         [("accept", "application/xml");
          ("content-type", "application/xml")] = Ok response →
       ¬ (400 ≤ status_code response < 600)%Z →
       CaseInsensitiveDict.getitem (headers response) "content-type" =
         Ok ct →
       is_xml (PyStr.casefold ct) = true →
       fromstring (content response) σ1 = (Some document, σ2) →
       ∃ g,
         filtered_get_list self service_uri filter σ = (Ok g, σ2) ∧
         generator_take (length (children_of σ2 document)) g σ2 =
           (Ok (mkDynamicModel <$> children_of σ2 document,
                mkGenerator document (length (children_of σ2 document))),
            σ2)).
Proof.
  intros Hsc.
  destruct (filter_select_spec filter σ Hsc) as (request & σ1 & Hrun & Htree & _).
  exists request, σ1. split; [exact Hrun|]. split.
  { eapply represents_in_weaken; [|exact Htree]. done. }
  split.
  - intros err Herr. rewrite Herr in Hrun.
    unfold filtered_get_list, mbind, M_bind, bind. by rewrite Hrun.
  - intros data response ct document σ2 Hdata Hpost Hstatus Hct Hxml Hparse.
    rewrite Hdata in Hrun.
    exists (mkGenerator document 0). split.
    + rewrite (filtered_get_list_run _ _ _ _ _ _ _ Hrun Hpost
                 (raise_for_status_ok _ Hstatus)).
      by rewrite parse_run, Hct, Hxml, Hparse.
    + rewrite (generator_take_run _ _ _ _ (length (children_of σ2 document)))
        by (simpl; lia).
      simpl. by rewrite firstn_all.
Qed.

Lemma X17_filtered_get_list_witness :
  let response := response_200 [("Content-Type", "application/xml")]
                    profiles_body in
  let σ1 := (_filter_select (H := plain_xml) complex_filter ∅).2 in
  let parsed := fromstring (XmlText := plain_xml) profiles_body σ1 in
  let document := match parsed.1 with Some d => d | None => 1%positive end in
  ∃ g,
    filtered_get_list (H := plain_xml) (client_of response) "profiles"
      complex_filter ∅ = (Ok g, parsed.2) ∧
    generator_take (length (children_of parsed.2 document)) g parsed.2 =
      (Ok (mkDynamicModel <$> children_of parsed.2 document,
           mkGenerator document (length (children_of parsed.2 document))),
       parsed.2).
Proof.
  intros response σ1 parsed document.
  destruct (X17_filtered_get_list (H := plain_xml) (client_of response)
              "profiles" complex_filter ∅ eq_refl)
    as (request & σ1' & Hrun & _ & _ & Hok).
  assert (σ1' = σ1) as -> by (unfold σ1; by rewrite Hrun).
  assert (tostring (XmlText := plain_xml) request σ1 =
          (_filter_select (H := plain_xml) complex_filter ∅).1) as Hdata
    by (by rewrite Hrun).
  apply (Hok (match (_filter_select (H := plain_xml) complex_filter ∅).1
              with Ok data => data | Raise _ => "" end)
           response "application/xml" document parsed.2).
  - rewrite Hdata. vm_compute. reflexivity.
  - reflexivity.
  - simpl. lia.
  - reflexivity.
  - reflexivity.
  - vm_compute. reflexivity.
Defined.
